(** * Intrusion-Detection-System: the flow feature extractor and the scoring route

    A shallow embedding of [app/utils/feature_extraction.py],
    [app/routes/prediction_routes.py] and [config.py], and the properties of
    the specification proved (or refuted) on it.

    Modelling conventions.
    - A Python [float] is an IEEE binary64 value: Rocq's primitive [float].
    - A [datetime] is a point on the time line, counted in whole microseconds
      (its resolution): a [Z].  All time points of a flow are taken to be of
      one kind (all naive or all offset-aware), so that comparing and
      subtracting them never fails; a flow that mixes the two kinds makes
      [sort], [max] and the subtraction raise a [TypeError], which the model
      does not show.  What is proved of every validated request is
      therefore stated for the requests on which the extractor returns.
      A [timedelta] is a [Z] as well.
    - A Python list that the code updates in place is threaded explicitly:
      a function that may change its argument returns the new contents next
      to its result.
    - A packet is a JSON object, i.e. a [dict] with string keys: a [gmap].
    - A raised exception is a value of [exn]; code that may raise returns a
      [result]. *)

From Stdlib Require Import ZArith Floats Uint63 Ascii.
From stdpp Require Import base option list gmap strings sorting.

Set Warnings "-inexact-float".

(** ** Exceptions and results *)

Inductive exn : Type :=
| KeyError (key : string)
| ValueError (msg : string)
| TypeError (msg : string)
| IndexError (msg : string).

Inductive result (A : Type) : Type :=
| Ok (a : A)
| Raise (e : exn).

Arguments Ok {A} a.
Arguments Raise {A} e.

Definition rbind {A B : Type} (r : result A) (k : A → result B) : result B :=
  match r with
  | Ok a => k a
  | Raise e => Raise e
  end.

Notation "'let?' x := r 'in' k" := (rbind r (fun x => k))
  (at level 10, x pattern, r at level 100, k at level 200, only parsing).

(** [repr(s)] of a string of printable characters: Python writes it between
    apostrophes, or between double quotes when it holds an apostrophe and no
    double quote, and puts a backslash before a backslash and before the
    quote it chose. *)
Fixpoint holds (c : Ascii.ascii) (s : string) : bool :=
  match s with
  | EmptyString => false
  | String c' rest => bool_decide (c' = c) || holds c rest
  end.

Definition py_quote (s : string) : Ascii.ascii :=
  if holds "039"%char s && negb (holds "034"%char s) then "034"%char else "039"%char.

Fixpoint py_escape (quote : Ascii.ascii) (s : string) : string :=
  match s with
  | EmptyString => EmptyString
  | String c rest =>
      if bool_decide (c = quote ∨ c = "092"%char)
      then String "092"%char (String c (py_escape quote rest))
      else String c (py_escape quote rest)
  end.

Definition repr_str (s : string) : string :=
  let quote := py_quote s in
  String quote (py_escape quote s +:+ String quote EmptyString).

(** [str(e)], as the route prints it into its error responses: the message,
    which a [KeyError] shows as its [repr]. *)
Definition str_exn (e : exn) : string :=
  match e with
  | KeyError k => repr_str k
  | ValueError m => m
  | TypeError m => m
  | IndexError m => m
  end.

(** ** JSON values and packets *)

(** The value found under a key of a decoded packet.  Strings are split by
    what [datetime.fromisoformat] (Python's library, not part of this
    repository) does with them: [JIso us] is a string it accepts, standing
    for the time point [us]; [JStr s] is any other string; [JNum n] is a
    value that is not a string. *)
Inductive json : Type :=
| JIso (us : Z)
| JStr (s : string)
| JNum (n : Z).

#[global] Instance json_eq_dec : EqDecision json.
Proof. solve_decision. Defined.

Abbreviation packet := (gmap string json).

(** [packet[key]] *)
Definition getitem (p : packet) (key : string) : result json :=
  match p !! key with
  | Some v => Ok v
  | None => Raise (KeyError key)
  end.

Definition fromisoformat (v : json) : result Z :=
  match v with
  | JIso us => Ok us
  | JStr s => Raise (ValueError ("Invalid isoformat string: '" +:+ s +:+ "'"))
  | JNum _ => Raise (TypeError "fromisoformat: argument must be str")
  end.

(** ** config.py *)

Module Config.

(** [IDLE_THRESHOLD = 500000]: an [int] literal, only ever compared with
    floats, where it stands for [500000.0]. *)
Definition IDLE_THRESHOLD : float := 500000%float.

(** [PREDICTION_THRESHOLD = 0.05] *)
Definition PREDICTION_THRESHOLD : float := 0.05%float.

End Config.

(** ** Floats *)

(** An integer as a float (exact below [2^53]). *)
Definition float_of_Z (z : Z) : float :=
  if (z <? 0)%Z then (- PrimFloat.of_uint63 (Uint63.of_Z (- z)))%float
  else PrimFloat.of_uint63 (Uint63.of_Z z).

Definition float_of_nat (n : nat) : float := float_of_Z (Z.of_nat n).

(** [timedelta.total_seconds()]: the microsecond count divided by [10**6].
    CPython rounds the quotient of the two integers once; so does the model
    for a count below [2^53] microseconds (about 285 years). *)
Definition total_seconds (d : Z) : float := (float_of_Z d / 1000000)%float.

(** [np.sum], [np.mean] and [np.std] over a list of floats (numpy is not
    part of this repository).  The sum runs left to right, as numpy's does
    below 8 elements; from 8 elements on numpy adds in pairwise blocks,
    which may differ in the last bit.  [np.std] is numpy's [_var] with
    [ddof = 0] followed by a square root. *)
Definition np_sum (a : list float) : float :=
  fold_left PrimFloat.add a 0%float.

Definition np_mean (a : list float) : float :=
  (np_sum a / float_of_nat (length a))%float.

Definition np_std (a : list float) : float :=
  let arrmean := (np_sum a / float_of_nat (length a))%float in
  let x := map (fun v => (v - arrmean)%float) a in
  let x := map (fun v => (v * v)%float) x in
  PrimFloat.sqrt (np_sum x / float_of_nat (length a))%float.

(** The builtin [max] over a non-empty list: the running maximum is
    replaced by an item that compares greater. *)
Definition py_max (first : float) (rest : list float) : float :=
  fold_left (fun m item => if (m <? item)%float then item else m) rest first.

(** [max] and [min] over a non-empty list of time points. *)
Definition max_time (first : Z) (rest : list Z) : Z := fold_left Z.max rest first.
Definition min_time (first : Z) (rest : list Z) : Z := fold_left Z.min rest first.

(** ** feature_extraction.py *)

(** [time_list.sort()] *)
Definition list_sort (time_list : list Z) : list Z := merge_sort Z.le time_list.

(** The loop [for i in range(1, len(time_list))] of [calculate_time_diff],
    with [prev = time_list[i-1]]. *)
Fixpoint time_diffs_from (prev : Z) (rest : list Z) : list float :=
  match rest with
  | [] => []
  | cur :: rest' =>
      (total_seconds (cur - prev) * 1000000)%float :: time_diffs_from cur rest'
  end.

(** Returns the inter-arrival times and the contents of [time_list] after
    the call. *)
Definition calculate_time_diff (time_list : list Z) : list float * list Z :=
  if decide (length time_list ≤ 1) then ([], time_list)
  else
    let time_list := list_sort time_list in
    let time_diffs :=
      match time_list with
      | [] => []
      | t0 :: rest => time_diffs_from t0 rest
      end in
    (time_diffs, time_list).

Definition calculate_idle_times (time_list : list Z) (threshold : float)
  : list float * list Z :=
  let '(time_diffs, time_list) := calculate_time_diff time_list in
  let idle_times := List.filter (fun diff => (threshold <? diff)%float) time_diffs in
  (idle_times, time_list).

Definition extract_fwd_iat_std (forward_packet_times : list Z) : float * list Z :=
  let '(fwd_iats, forward_packet_times) := calculate_time_diff forward_packet_times in
  if decide (length fwd_iats < 2) then (0%float, forward_packet_times)
  else (np_std fwd_iats, forward_packet_times).

Definition extract_bwd_iat_std (backward_packet_times : list Z) : float * list Z :=
  let '(bwd_iats, backward_packet_times) := calculate_time_diff backward_packet_times in
  if decide (length bwd_iats < 2) then (0%float, backward_packet_times)
  else (np_std bwd_iats, backward_packet_times).

Definition extract_flow_iat_std (all_packet_times : list Z) : float * list Z :=
  let '(flow_iats, all_packet_times) := calculate_time_diff all_packet_times in
  if decide (length flow_iats < 2) then (0%float, all_packet_times)
  else (np_std flow_iats, all_packet_times).

Definition extract_fwd_iat_max (forward_packet_times : list Z) : float * list Z :=
  let '(fwd_iats, forward_packet_times) := calculate_time_diff forward_packet_times in
  match fwd_iats with
  | [] => (0%float, forward_packet_times)
  | d :: ds => (py_max d ds, forward_packet_times)
  end.

Definition extract_flow_iat_mean (all_packet_times : list Z) : float * list Z :=
  let '(flow_iats, all_packet_times) := calculate_time_diff all_packet_times in
  match flow_iats with
  | [] => (0%float, all_packet_times)
  | _ :: _ => (np_mean flow_iats, all_packet_times)
  end.

Definition extract_flow_iat_max (all_packet_times : list Z) : float * list Z :=
  let '(flow_iats, all_packet_times) := calculate_time_diff all_packet_times in
  match flow_iats with
  | [] => (0%float, all_packet_times)
  | d :: ds => (py_max d ds, all_packet_times)
  end.

Definition extract_fwd_iat_mean (forward_packet_times : list Z) : float * list Z :=
  let '(fwd_iats, forward_packet_times) := calculate_time_diff forward_packet_times in
  match fwd_iats with
  | [] => (0%float, forward_packet_times)
  | _ :: _ => (np_mean fwd_iats, forward_packet_times)
  end.

Definition extract_fwd_iat_total (forward_packet_times : list Z) : float * list Z :=
  let '(fwd_iats, forward_packet_times) := calculate_time_diff forward_packet_times in
  match fwd_iats with
  | [] => (0%float, forward_packet_times)
  | _ :: _ => (np_sum fwd_iats, forward_packet_times)
  end.

(** Reads its argument only. *)
Definition extract_flow_duration (all_packet_times : list Z) : float :=
  match all_packet_times with
  | t0 :: (_ :: _) as rest =>
      (total_seconds (max_time t0 rest - min_time t0 rest) * 1000000)%float
  | _ => 0%float
  end.

Definition extract_bwd_iat_max (backward_packet_times : list Z) : float * list Z :=
  let '(bwd_iats, backward_packet_times) := calculate_time_diff backward_packet_times in
  match bwd_iats with
  | [] => (0%float, backward_packet_times)
  | d :: ds => (py_max d ds, backward_packet_times)
  end.

Definition extract_idle_max (all_packet_times : list Z) (threshold : float)
  : float * list Z :=
  let '(idle_times, all_packet_times) := calculate_idle_times all_packet_times threshold in
  match idle_times with
  | [] => (0%float, all_packet_times)
  | d :: ds => (py_max d ds, all_packet_times)
  end.

Definition extract_idle_mean (all_packet_times : list Z) (threshold : float)
  : float * list Z :=
  let '(idle_times, all_packet_times) := calculate_idle_times all_packet_times threshold in
  match idle_times with
  | [] => (0%float, all_packet_times)
  | _ :: _ => (np_mean idle_times, all_packet_times)
  end.

(** The three lists [parse_packet_data] fills. *)
Record times : Type := Times {
  forward_packet_times : list Z;
  backward_packet_times : list Z;
  all_packet_times : list Z
}.

(** The body of the [try] block for one packet: the lists as the body
    leaves them, and the exception it stopped with, if any.  What was
    appended before an exception stays appended. *)
Definition try_packet (first_src_ip first_src_port : json) (p : packet) (st : times)
  : times * option exn :=
  match getitem p "timestamp" with
  | Raise e => (st, Some e)
  | Ok v =>
      match fromisoformat v with
      | Raise e => (st, Some e)
      | Ok timestamp =>
          let st := Times (forward_packet_times st) (backward_packet_times st)
                          (all_packet_times st ++ [timestamp]) in
          let forward := Times (forward_packet_times st ++ [timestamp])
                               (backward_packet_times st) (all_packet_times st) in
          let backward := Times (forward_packet_times st)
                                (backward_packet_times st ++ [timestamp])
                                (all_packet_times st) in
          match getitem p "src_ip" with
          | Raise e => (st, Some e)
          | Ok src_ip =>
              if decide (src_ip = first_src_ip) then
                match getitem p "src_port" with
                | Raise e => (st, Some e)
                | Ok src_port =>
                    if decide (src_port = first_src_port) then (forward, None)
                    else (backward, None)
                end
              else (backward, None)
          end
      end
  end.

(** [for packet in packet_data: try: ... except (KeyError, ValueError): continue] *)
Fixpoint parse_loop (first_src_ip first_src_port : json) (packet_data : list packet)
    (st : times) : result times :=
  match packet_data with
  | [] => Ok st
  | p :: rest =>
      match try_packet first_src_ip first_src_port p st with
      | (st, None) => parse_loop first_src_ip first_src_port rest st
      | (st, Some (KeyError _)) => parse_loop first_src_ip first_src_port rest st
      | (st, Some (ValueError _)) => parse_loop first_src_ip first_src_port rest st
      | (_, Some e) => Raise e
      end
  end.

Definition parse_packet_data (packet_data : list packet) : result times :=
  match packet_data with
  | [] => Ok (Times [] [] [])
  | p0 :: _ =>
      let? first_src_ip := getitem p0 "src_ip" in
      let? first_src_port := getitem p0 "src_port" in
      parse_loop first_src_ip first_src_port packet_data (Times [] [] [])
  end.

(** The feature dictionary, in insertion order. *)
Definition extract_all_features (packet_data : list packet)
  : result (list (string * float)) :=
  let? t := parse_packet_data packet_data in
  let forward_times := forward_packet_times t in
  let backward_times := backward_packet_times t in
  let all_times := all_packet_times t in
  let '(fwd_iat_std, forward_times) := extract_fwd_iat_std forward_times in
  let '(bwd_iat_std, backward_times) := extract_bwd_iat_std backward_times in
  let '(flow_iat_std, all_times) := extract_flow_iat_std all_times in
  let '(fwd_iat_max, forward_times) := extract_fwd_iat_max forward_times in
  let '(flow_iat_mean, all_times) := extract_flow_iat_mean all_times in
  let '(flow_iat_max, all_times) := extract_flow_iat_max all_times in
  let '(fwd_iat_mean, forward_times) := extract_fwd_iat_mean forward_times in
  let '(fwd_iat_total, forward_times) := extract_fwd_iat_total forward_times in
  let flow_duration := extract_flow_duration all_times in
  let '(bwd_iat_max, backward_times) := extract_bwd_iat_max backward_times in
  let '(idle_max, all_times) := extract_idle_max all_times Config.IDLE_THRESHOLD in
  let '(idle_mean, all_times) := extract_idle_mean all_times Config.IDLE_THRESHOLD in
  Ok [ ("Fwd IAT Std", fwd_iat_std);
       ("Bwd IAT Std", bwd_iat_std);
       ("Flow IAT Std", flow_iat_std);
       ("Fwd IAT Max", fwd_iat_max);
       ("Flow IAT Mean", flow_iat_mean);
       ("Flow IAT Max", flow_iat_max);
       ("Fwd IAT Mean", fwd_iat_mean);
       ("Fwd IAT Total", fwd_iat_total);
       ("Flow Duration", flow_duration);
       ("Bwd IAT Max", bwd_iat_max);
       ("Idle Max", idle_max);
       ("Idle Mean", idle_mean) ].

(** ** prediction_routes.py *)

(** The JSON body of a response. *)
Inductive body : Type :=
| ErrorBody (error : string)
| VerdictBody (prediction : Z) (is_attack : bool).

Definition required_fields : list string :=
  ["timestamp"; "src_ip"; "dst_ip"; "src_port"; "dst_port"].

(** [[field for field in required_fields if field not in packet]] *)
Definition missing_fields (p : packet) : list string :=
  List.filter (fun field => bool_decide (p !! field = None)) required_fields.

(** The validation loop: the response of its first [return], if any. *)
Fixpoint validate (packet_data : list packet) : option (body * Z) :=
  match packet_data with
  | [] => None
  | p :: rest =>
      match missing_fields p with
      | [] => validate rest
      | (_ :: _) as missing =>
          Some (ErrorBody ("Missing required fields in packet: "
                           +:+ String.concat ", " missing), 400%Z)
      end
  end.

Definition expected_cols : list string :=
  ["Fwd IAT Std"; "Bwd IAT Std"; "Flow IAT Std";
   "Fwd IAT Max"; "Flow IAT Mean"; "Flow IAT Max";
   "Fwd IAT Mean"; "Fwd IAT Total"; "Flow Duration";
   "Bwd IAT Max"; "Idle Max"; "Idle Mean"].

(** The one row of [pd.DataFrame([features])], read by column name. *)
Fixpoint column (features : list (string * float)) (col : string) : result float :=
  match features with
  | [] => Raise (KeyError col)
  | (name, v) :: rest => if decide (name = col) then Ok v else column rest col
  end.

(** [str] of a list of strings: [['a', 'b']]. *)
Definition str_list (l : list string) : string :=
  "[" +:+ String.concat ", " (map repr_str l) +:+ "]".

(** The items of [l] that are not in [seen], each once, in the order of
    their first occurrence: [Index.unique]. *)
Fixpoint unique (seen l : list string) : list string :=
  match l with
  | [] => []
  | x :: rest =>
      if decide (x ∈ seen) then unique seen rest else x :: unique (x :: seen) rest
  end.

(** Whether the row has no column [col]. *)
Definition absent (features : list (string * float)) (col : string) : bool :=
  bool_decide (col ∉ features.*1).

(** The values of the row in the order of [cols], once every one of them is
    known to be a column. *)
Fixpoint row_values (features : list (string * float)) (cols : list string)
  : result (list float) :=
  match cols with
  | [] => Ok []
  | c :: cols' =>
      let? v := column features c in
      let? vs := row_values features cols' in
      Ok (v :: vs)
  end.

(** [feature_df[expected_cols]] (pandas is not part of this repository): the
    row's values in the order of [cols].  A list of labels is looked up as a
    whole, by [Index._raise_if_missing]: when labels are missing, one
    [KeyError] names all of them ([not_found], each once, in the order
    asked); when every label asked for is missing, the message shows the whole
    list instead, as an [Index] of strings (here on one line and with the
    [dtype] of pandas 1 and 2). *)
Definition not_found (features : list (string * float)) (cols : list string)
  : list string :=
  unique [] (List.filter (absent features) cols).

Definition select_columns (features : list (string * float)) (cols : list string)
  : result (list float) :=
  match not_found features cols with
  | [] => row_values features cols
  | (_ :: _) as not_found =>
      if forallb (absent features) cols
      then Raise (KeyError ("None of [Index(" +:+ str_list cols
                            +:+ ", dtype='object')] are in the [columns]"))
      else Raise (KeyError (str_list not_found +:+ " not in index"))
  end.

(** [probabilities[1] > Config.PREDICTION_THRESHOLD] *)
Definition is_attack_of (threshold p_attack : float) : bool :=
  (threshold <? p_attack)%float.

(** [int(is_attack)] *)
Definition int_of_bool (b : bool) : Z := if b then 1%Z else 0%Z.

(** What the [try] block of [predict] computes once the request is
    validated.  [predict_proba] is the loaded classifier, taken as
    [model.predict_proba(feature_df)[0].tolist()]. *)
Definition score (predict_proba : list float → list float)
    (packet_data : list packet) : result body :=
  let? features := extract_all_features packet_data in
  let? feature_df := select_columns features expected_cols in
  let probabilities := predict_proba feature_df in
  match probabilities !! 1%nat with
  | None => Raise (IndexError "list index out of range")
  | Some p_attack =>
      let is_attack := is_attack_of Config.PREDICTION_THRESHOLD p_attack in
      Ok (VerdictBody (int_of_bool is_attack) is_attack)
  end.

(** The route: the response body and its HTTP status.  [model] is [None]
    when loading the model failed at start-up ([model_loaded = False]).
    [Config] has no [DEBUG_MODE] attribute, so no details are added. *)
Definition predict (model : option (list float → list float))
    (packet_data : list packet) : body * Z :=
  match model with
  | None => (ErrorBody "Model not loaded. Check server logs.", 503%Z)
  | Some predict_proba =>
      match packet_data with
      | [] => (ErrorBody "Empty packet data", 400%Z)
      | _ :: _ =>
          match validate packet_data with
          | Some response => response
          | None =>
              match score predict_proba packet_data with
              | Ok verdict => (verdict, 200%Z)
              | Raise (ValueError msg) =>
                  (ErrorBody ("Invalid data format: " +:+ msg), 400%Z)
              | Raise e => (ErrorBody ("Server error: " +:+ str_exn e), 500%Z)
              end
          end
      end
  end.

(** ** Sample packets *)

Definition pkt (src_ip src_port timestamp : json) : packet :=
  {[ "timestamp" := timestamp; "src_ip" := src_ip; "dst_ip" := JStr "10.0.0.9";
     "src_port" := src_port; "dst_port" := JNum 443 ]}.

Definition host_a : json := JStr "10.0.0.1".
Definition host_b : json := JStr "10.0.0.2".

(** * Notions used in the statements *)

(** What one packet contributes to each of the three lists. *)
Definition stamp (p : packet) : list Z :=
  match p !! "timestamp" with
  | Some (JIso t) => [t]
  | _ => []
  end.

(** The test of the loop on a packet, for the initiator [(ip, port)]: the
    packet goes to the forward list, to the backward list, or (a key being
    absent) to neither. *)
Definition is_forward (ip port : json) (p : packet) : bool :=
  bool_decide (p !! "src_ip" = Some ip ∧ p !! "src_port" = Some port).

Definition is_backward (ip port : json) (p : packet) : bool :=
  match p !! "src_ip" with
  | None => false
  | Some ip' =>
      if decide (ip' = ip) then
        match p !! "src_port" with
        | None => false
        | Some port' => bool_decide (port' ≠ port)
        end
      else true
  end.

Definition forward_stamp (ip port : json) (p : packet) : list Z :=
  if is_forward ip port p then stamp p else [].

Definition backward_stamp (ip port : json) (p : packet) : list Z :=
  if is_backward ip port p then stamp p else [].

(** The packets whose [timestamp] is not a string stop the whole loop. *)
Definition fatal (p : packet) : bool :=
  match p !! "timestamp" with
  | Some (JNum _) => true
  | _ => false
  end.

(** The exception they raise. *)
Definition not_str : exn := TypeError "fromisoformat: argument must be str".

(** Whether the [except (KeyError, ValueError)] clause lets [e] through. *)
Definition escapes (oe : option exn) : bool :=
  match oe with
  | None | Some (KeyError _) | Some (ValueError _) => false
  | Some _ => true
  end.

(** A packet sent from [(ip, port)] at time [t]. *)
Definition sent_at (ip port : json) (t : Z) (p : packet) : Prop :=
  p !! "timestamp" = Some (JIso t) ∧ p !! "src_ip" = Some ip ∧ p !! "src_port" = Some port.

(** The gaps between the neighbours of a list, in microseconds. *)
Definition time_diffs (sorted : list Z) : list float :=
  match sorted with
  | [] => []
  | t0 :: rest => time_diffs_from t0 rest
  end.

(** [inter_arrival_times]: what [calculate_time_diff] returns. *)
Definition inter_arrival_times (points : list Z) : list float :=
  (calculate_time_diff points).1.

(** [idle_times]: what [calculate_idle_times] returns. *)
Definition idle_times (points : list Z) (threshold : float) : list float :=
  (calculate_idle_times points threshold).1.

(** The four reducers with their policy for short sequences, as the
    specification words them. *)
Definition std_reducer (iats : list float) : float :=
  if decide (length iats < 2) then 0%float else np_std iats.

Definition mean_reducer (iats : list float) : float :=
  match iats with [] => 0%float | _ :: _ => np_mean iats end.

Definition max_reducer (iats : list float) : float :=
  match iats with [] => 0%float | d :: ds => py_max d ds end.

Definition sum_reducer (iats : list float) : float :=
  match iats with [] => 0%float | _ :: _ => np_sum iats end.

(** The feature dictionary computed from the three lists. *)
Definition features_of (t : times) : list (string * float) :=
  let fwd := inter_arrival_times (forward_packet_times t) in
  let bwd := inter_arrival_times (backward_packet_times t) in
  let flow := inter_arrival_times (all_packet_times t) in
  let idle := idle_times (all_packet_times t) Config.IDLE_THRESHOLD in
  [ ("Fwd IAT Std", std_reducer fwd);
    ("Bwd IAT Std", std_reducer bwd);
    ("Flow IAT Std", std_reducer flow);
    ("Fwd IAT Max", max_reducer fwd);
    ("Flow IAT Mean", mean_reducer flow);
    ("Flow IAT Max", max_reducer flow);
    ("Fwd IAT Mean", mean_reducer fwd);
    ("Fwd IAT Total", sum_reducer fwd);
    ("Flow Duration", extract_flow_duration (all_packet_times t));
    ("Bwd IAT Max", max_reducer bwd);
    ("Idle Max", max_reducer idle);
    ("Idle Mean", mean_reducer idle) ].

(** The flow of the scenario: three packets of the initiator. *)
Definition three_forward : list packet :=
  [ pkt host_a (JNum 40000) (JIso 0);
    pkt host_a (JNum 40000) (JIso 1000);
    pkt host_a (JNum 40000) (JIso 3000) ].

(** A packet that passes the route's validation and whose [timestamp] is a
    JSON string (in ISO form or not). *)
Definition valid_packet (p : packet) : Prop :=
  missing_fields p = [] ∧ fatal p = false.

(** The dictionary entry [features[name]]. *)
Definition feature (packet_data : list packet) (name : string) : result float :=
  let? features := extract_all_features packet_data in
  column features name.

(** The feature vector the classifier receives: [feature_df[expected_cols]]. *)
Definition feature_vector (packet_data : list packet) : result (list float) :=
  let? features := extract_all_features packet_data in
  select_columns features expected_cols.

Definition one_packet : list packet := [pkt host_a (JNum 40000) (JIso 0)].

(** The source address and port of the first submitted packet. *)
Definition initiator (packet_data : list packet) : option (option json * option json) :=
  (fun p => (p !! "src_ip", p !! "src_port")) <$> head packet_data.

(** Three packets of two endpoints that carry one and the same timestamp. *)
Definition same_instant : list packet :=
  [ pkt host_a (JNum 40000) (JIso 5000);
    pkt host_b (JNum 443) (JIso 5000);
    pkt host_a (JNum 40000) (JIso 5000) ].

(** Two packets of one endpoint and an answer of the other. *)
Definition two_way : list packet :=
  [ pkt host_a (JNum 40000) (JIso 0);
    pkt host_a (JNum 40000) (JIso 1000);
    pkt host_b (JNum 443) (JIso 5000) ].

(** The same request with its last two packets exchanged. *)
Definition two_way_swapped : list packet :=
  [ pkt host_a (JNum 40000) (JIso 0);
    pkt host_b (JNum 443) (JIso 5000);
    pkt host_a (JNum 40000) (JIso 1000) ].

(** The same request with its last packet moved to the front. *)
Definition two_way_shuffled : list packet :=
  [ pkt host_b (JNum 443) (JIso 5000);
    pkt host_a (JNum 40000) (JIso 0);
    pkt host_a (JNum 40000) (JIso 1000) ].

(** The population standard deviation in the words of the specification:
    the square root of the mean squared distance to the mean, the divisor
    being the number [N] of data points (not [N - 1]).  A total is taken by
    adding the data points one after the other, starting from 0.0. *)
Fixpoint float_total (total : float) (data : list float) : float :=
  match data with
  | [] => total
  | x :: rest => float_total (total + x)%float rest
  end.

Definition population_mean (data : list float) : float :=
  (float_total 0 data / float_of_nat (length data))%float.

Fixpoint squared_distances (mu : float) (data : list float) : list float :=
  match data with
  | [] => []
  | x :: rest => ((x - mu) * (x - mu))%float :: squared_distances mu rest
  end.

Definition population_variance (data : list float) : float :=
  (float_total 0 (squared_distances (population_mean data) data)
   / float_of_nat (length data))%float.

Definition population_std (data : list float) : float :=
  PrimFloat.sqrt (population_variance data).

(** [sys.maxsize]: the largest number of items of a Python list (on the
    64-bit platforms, where [float_of_nat] is the conversion of a length). *)
Definition maxsize : Z := (2 ^ 63 - 1)%Z.

(** A packet as the data model has it, as far as the classifier reads it:
    a source address, a source port and a timestamp in ISO form. *)
Definition is_packet (p : packet) : Prop :=
  ∃ ip port t, sent_at ip port t p.

(** [p] has the source address and port [(ip, port)]. *)
Definition sends_from (ip port : json) (p : packet) : Prop :=
  p !! "src_ip" = Some ip ∧ p !! "src_port" = Some port.

#[global] Instance sends_from_dec ip port p : Decision (sends_from ip port p).
Proof. unfold sends_from. apply _. Defined.

(** A packet with a timestamp but no source address, one with the
    initiator's address but no source port, and one with another address
    and no source port. *)
Definition no_src_ip : packet := {[ "timestamp" := JIso 1000 ]}.
Definition no_src_port : packet := {[ "timestamp" := JIso 2000; "src_ip" := host_a ]}.
Definition other_no_src_port : packet := {[ "timestamp" := JIso 3000; "src_ip" := host_b ]}.

(** A valid packet, and the same packet without [dst_port] and with a
    timestamp that is not even a string. *)
Definition good_packet : packet := pkt host_a (JNum 40000) (JIso 0).
Definition bad_packet : packet := delete "dst_port" (pkt host_a (JNum 40000) (JNum 0)).

(** A classifier that gives the attack class the probability 0.06. *)
Definition sample_model (vector : list float) : list float := [0.94; 0.06]%float.

(** A packet that names its source address and port and whose timestamp, if
    it has one, is a string. *)
Definition sourced (p : packet) : Prop :=
  is_Some (p !! "src_ip") ∧ is_Some (p !! "src_port") ∧ fatal p = false.

(** Two packets of the initiator; the timestamp of the first is a string
    that is not in ISO form. *)
Definition unparsed_first : list packet :=
  [ pkt host_a (JNum 40000) (JStr "yesterday");
    pkt host_a (JNum 40000) (JIso 1000) ].

(** Two packets that agree on the three keys the classifier reads. *)
Definition same_flow_keys (p q : packet) : Prop :=
  p !! "timestamp" = q !! "timestamp"
  ∧ p !! "src_ip" = q !! "src_ip"
  ∧ p !! "src_port" = q !! "src_port".

(** Two packets that agree on these keys and have the same required keys
    present. *)
Definition same_request_keys (p q : packet) : Prop :=
  same_flow_keys p q
  ∧ (p !! "dst_ip" = None ↔ q !! "dst_ip" = None)
  ∧ (p !! "dst_port" = None ↔ q !! "dst_port" = None).

(** A packet the loop drops without a trace: its timestamp is absent or is
    a string that does not parse. *)
Definition dropped (p : packet) : bool :=
  match p !! "timestamp" with
  | None | Some (JStr _) => true
  | Some _ => false
  end.

(** The first submitted packet names a source address and port. *)
Definition has_initiator (packet_data : list packet) : Prop :=
  ∃ p0 ip port, head packet_data = Some p0
    ∧ p0 !! "src_ip" = Some ip ∧ p0 !! "src_port" = Some port.

(** A row of two columns, the same row filled in the other order, and a
    request for four columns, one of them twice. *)
Definition two_columns : list (string * float) :=
  [("Idle Max", 1%float); ("Fwd IAT Std", 2%float)].

Definition two_columns_swapped : list (string * float) :=
  [("Fwd IAT Std", 2%float); ("Idle Max", 1%float)].

Definition asked_columns : list string :=
  ["Fwd IAT Std"; "Bwd IAT Std"; "Idle Max"; "Idle Mean"; "Bwd IAT Std"].

(** The six entries computed from the list of all packets. *)
Definition flow_level : list string :=
  ["Flow IAT Std"; "Flow IAT Mean"; "Flow IAT Max"; "Flow Duration";
   "Idle Max"; "Idle Mean"].

(** The class of a binary64 value (its [spec_float]): of the sign [sx] and
    not NaN; finite or zero, of magnitude below [2^k]; finite and not
    negative (and not the negative zero); not NaN and not negative ([+0], a
    positive finite float or [+inf]); finite and positive. *)
Definition signed_as (sx : bool) (x : spec_float) : Prop :=
  match x with
  | S754_zero s | S754_infinity s | S754_finite s _ _ => s = sx
  | S754_nan => False
  end.

Definition mag_le (k : Z) (x : spec_float) : Prop :=
  match x with
  | S754_zero _ => True
  | S754_finite _ m e => (Zdigits2 (Z.pos m) + e ≤ k)%Z
  | _ => False
  end.

Definition finite_nonneg (x : spec_float) : Prop :=
  match x with
  | S754_zero false | S754_finite false _ _ => True
  | _ => False
  end.

Definition nonneg (x : spec_float) : Prop :=
  match x with
  | S754_zero false | S754_finite false _ _ | S754_infinity false => True
  | _ => False
  end.

Definition finite_pos (x : spec_float) : Prop :=
  match x with
  | S754_finite false _ _ => True
  | _ => False
  end.

(** The float [1000000.0]. *)
Definition one_million_SF : spec_float := S754_finite false 8589934592000000 (-33).

(** * Properties *)

(** ** Floats *)

Lemma ltb_irrefl (x : float) : (x <? x)%float = false.
Proof.
  rewrite FloatAxioms.ltb_spec. unfold SFltb, SFcompare.
  destruct (Prim2SF x) as [[]|[]| |[] m e]; try reflexivity.
  all: rewrite Z.compare_refl, Pos.compare_cont_refl; reflexivity.
Qed.

Lemma float_neq (x y : float) : Prim2SF x ≠ Prim2SF y → x ≠ y.
Proof. intros H ->. by apply H. Qed.


(** ** Rounding in binary64 *)

Local Open Scope Z_scope.

Lemma digits2_pos_size (p : positive) : digits2_pos p = Pos.size p.
Proof. induction p; simpl; congruence. Qed.

Lemma Zdigits2_log2 (m : Z) : 0 < m → Zdigits2 m = Z.log2 m + 1.
Proof.
  destruct m as [|p|p]; [lia| |lia]. intros _. simpl.
  rewrite digits2_pos_size. destruct p; simpl; lia.
Qed.

Lemma Zdigits2_nonneg (m : Z) : 0 ≤ Zdigits2 m.
Proof. destruct m; simpl; lia. Qed.

Lemma shr_1_m (mrs : shr_record) :
  0 ≤ shr_m mrs → shr_m (shr_1 mrs) = Z.shiftr (shr_m mrs) 1.
Proof.
  destruct mrs as [m r s]. simpl. intros Hm.
  destruct m as [|[p|p|]|p]; try reflexivity; lia.
Qed.

Lemma iter_pos_shr_1 (p : positive) (mrs : shr_record) :
  0 ≤ shr_m mrs →
  shr_m (SpecFloat.iter_pos shr_1 p mrs) = Z.shiftr (shr_m mrs) (Z.pos p).
Proof.
  revert mrs. induction p as [p IH|p IH|]; intros mrs Hm; simpl.
  - assert (0 ≤ shr_m (shr_1 mrs)) as H1
      by (rewrite shr_1_m by done; by apply Z.shiftr_nonneg).
    assert (0 ≤ shr_m (SpecFloat.iter_pos shr_1 p (shr_1 mrs))) as H2
      by (rewrite IH by done; by apply Z.shiftr_nonneg).
    rewrite IH, IH, shr_1_m, !Z.shiftr_shiftr by (done || lia).
    f_equal. lia.
  - assert (0 ≤ shr_m (SpecFloat.iter_pos shr_1 p mrs)) as H2
      by (rewrite IH by done; by apply Z.shiftr_nonneg).
    rewrite IH, IH, !Z.shiftr_shiftr by (done || lia). f_equal. lia.
  - by apply shr_1_m.
Qed.

Lemma shr_record_of_loc_m (m : Z) (l : location) : shr_m (shr_record_of_loc m l) = m.
Proof. by destruct l as [|[]]. Qed.

(** One alignment step: the mantissa is shifted right up to the exponent
    the format prescribes for its magnitude. *)
Lemma shr_fexp_spec (m e : Z) (l : location) :
  0 ≤ m →
  (shr_fexp prec emax m e l).2 = Z.max e (fexp prec emax (Zdigits2 m + e))
  ∧ shr_m (shr_fexp prec emax m e l).1
    = Z.shiftr m (Z.max e (fexp prec emax (Zdigits2 m + e)) - e).
Proof.
  intros Hm. unfold shr_fexp, shr.
  destruct (fexp prec emax (Zdigits2 m + e) - e) as [|n|n] eqn:Hn; simpl.
  - rewrite shr_record_of_loc_m. replace (Z.max _ _ - e) with 0 by lia.
    split; [lia|done].
  - rewrite iter_pos_shr_1, shr_record_of_loc_m by (by rewrite shr_record_of_loc_m).
    replace (Z.max _ _ - e) with (Z.pos n) by lia. split; [lia|done].
  - rewrite shr_record_of_loc_m. replace (Z.max _ _ - e) with 0 by lia.
    split; [lia|done].
Qed.

Lemma round_nearest_even_bounds (m : Z) (l : location) :
  m ≤ round_nearest_even m l ≤ m + 1.
Proof. destruct l as [|[]]; simpl; try lia. destruct (Z.even m); lia. Qed.

(** The three outcomes of a rounding that is given a mantissa [mx >= 0]. *)
Lemma binary_round_aux_cases (sx : bool) (mx ex : Z) (lx : location) :
  0 ≤ mx →
  ∃ m1 r m2 e1 e2,
    e1 = Z.max ex (fexp prec emax (Zdigits2 mx + ex))
    ∧ m1 = Z.shiftr mx (e1 - ex)
    ∧ m1 ≤ r ≤ m1 + 1
    ∧ e2 = Z.max e1 (fexp prec emax (Zdigits2 r + e1))
    ∧ m2 = Z.shiftr r (e2 - e1)
    ∧ binary_round_aux prec emax sx mx ex lx =
        match m2 with
        | 0 => S754_zero sx
        | Z.pos m => if e2 <=? emax - prec then S754_finite sx m e2 else S754_infinity sx
        | Z.neg _ => S754_nan
        end.
Proof.
  intros Hm. unfold binary_round_aux.
  destruct (shr_fexp_spec mx ex lx Hm) as [He1 Hm1].
  destruct (shr_fexp prec emax mx ex lx) as [mrs1 e1]. simpl in He1, Hm1.
  set (r := round_nearest_even (shr_m mrs1) (loc_of_shr_record mrs1)).
  assert (0 ≤ shr_m mrs1) as Hm1' by (rewrite Hm1; by apply Z.shiftr_nonneg).
  pose proof (round_nearest_even_bounds (shr_m mrs1) (loc_of_shr_record mrs1)) as Hr.
  fold r in Hr.
  destruct (shr_fexp_spec r e1 loc_Exact ltac:(lia)) as [He2 Hm2].
  destruct (shr_fexp prec emax r e1 loc_Exact) as [mrs2 e2]. simpl in He2, Hm2.
  exists (shr_m mrs1), r, (shr_m mrs2), e1, e2.
  split_and!; try done; try lia.
  - by rewrite He1.
  - by rewrite He2.
Qed.

(** A rounding never invents a NaN, and it keeps the sign it is given. *)
Lemma binary_round_aux_signed (sx : bool) (mx ex : Z) (lx : location) :
  0 ≤ mx → signed_as sx (binary_round_aux prec emax sx mx ex lx).
Proof.
  intros Hm.
  destruct (binary_round_aux_cases sx mx ex lx Hm)
    as (m1 & r & m2 & e1 & e2 & -> & -> & Hr & -> & -> & ->).
  assert (0 ≤ Z.shiftr mx (Z.max ex (fexp prec emax (Zdigits2 mx + ex)) - ex))
    by (by apply Z.shiftr_nonneg).
  assert (0 ≤ Z.shiftr r (Z.max (Z.max ex (fexp prec emax (Zdigits2 mx + ex)))
                            (fexp prec emax (Zdigits2 r + Z.max ex (fexp prec emax (Zdigits2 mx + ex))))
                          - Z.max ex (fexp prec emax (Zdigits2 mx + ex))))
    as H2 by (apply Z.shiftr_nonneg; lia).
  destruct (Z.shiftr r _) as [|m|m]; simpl; [done| |lia].
  by destruct (_ <=? _).
Qed.


Lemma Zdigits2_pos_iff (a : Z) : 0 ≤ a → 0 < a ↔ 0 < Zdigits2 a.
Proof. destruct a; simpl; lia. Qed.

Lemma Zdigits2_shiftr (a n : Z) :
  0 ≤ a → 0 ≤ n → Zdigits2 (Z.shiftr a n) = Z.max 0 (Zdigits2 a - n).
Proof.
  intros Ha Hn. destruct (Z.eq_dec a 0) as [->|Hne].
  { rewrite Z.shiftr_0_l. simpl. lia. }
  assert (0 < a) as Hpos by lia.
  destruct (Z.eq_dec (Z.shiftr a n) 0) as [H0|H0].
  - rewrite H0. apply Z.shiftr_eq_0_iff in H0 as [?|[_ Hlt]]; [lia|].
    rewrite (Zdigits2_log2 a) by done. simpl. lia.
  - assert (0 < Z.shiftr a n) as Hs by (pose proof (Z.shiftr_nonneg a n); lia).
    rewrite !Zdigits2_log2, Z.log2_shiftr by done.
    assert (¬ (Z.log2 a < n)); [|lia].
    intros Hlt. apply H0, Z.shiftr_eq_0; lia.
Qed.

Lemma Zdigits2_le (a b : Z) : 0 ≤ a → a ≤ b → Zdigits2 a ≤ Zdigits2 b.
Proof.
  intros Ha Hab. destruct (Z.eq_dec a 0) as [->|Hne]; [apply Zdigits2_nonneg|].
  rewrite !Zdigits2_log2 by lia. pose proof (Z.log2_le_mono a b Hab). lia.
Qed.

Lemma Zdigits2_succ (a : Z) : 0 ≤ a → Zdigits2 (a + 1) ≤ Zdigits2 a + 1.
Proof.
  intros Ha. destruct (Z.eq_dec a 0) as [->|Hne]; [simpl; lia|].
  rewrite !Zdigits2_log2 by lia. pose proof (Z.log2_succ_le a). unfold Z.succ in *. lia.
Qed.

Lemma fexp_eq (e : Z) : fexp prec emax e = Z.max (e - 53) (-1074).
Proof. reflexivity. Qed.

(** A rounding of a value below [2^k] that cannot overflow. *)
Lemma binary_round_aux_mag (sx : bool) (mx ex : Z) (lx : location) (k : Z) :
  0 ≤ mx → ex ≤ 971 → Zdigits2 mx + ex ≤ k → -1073 ≤ k ≤ 1023 →
  mag_le (k + 1) (binary_round_aux prec emax sx mx ex lx)
  ∧ signed_as sx (binary_round_aux prec emax sx mx ex lx).
Proof.
  intros Hm Hex Hk Hrange. split; [|by apply binary_round_aux_signed].
  destruct (binary_round_aux_cases sx mx ex lx Hm)
    as (m1 & r & m2 & e1 & e2 & He1 & Hm1 & Hr & He2 & Hm2 & ->).
  rewrite fexp_eq in He1, He2.
  assert (0 ≤ e1 - ex) as Hn1 by lia. assert (0 ≤ e2 - e1) as Hn2 by lia.
  pose proof (Zdigits2_shiftr mx (e1 - ex) Hm Hn1) as Hd1. rewrite <- Hm1 in Hd1.
  assert (0 ≤ m1) as Hm1' by (rewrite Hm1; by apply Z.shiftr_nonneg).
  assert (0 ≤ r) as Hr' by lia.
  pose proof (Zdigits2_shiftr r (e2 - e1) Hr' Hn2) as Hd2. rewrite <- Hm2 in Hd2.
  pose proof (Zdigits2_le r (m1 + 1) Hr' ltac:(lia)) as Hdr.
  pose proof (Zdigits2_succ m1 Hm1') as Hds.
  pose proof (Zdigits2_nonneg r) as Hdr0.
  pose proof (Zdigits2_nonneg mx) as Hdx0.
  destruct m2 as [|m|m] eqn:Em2; simpl; [done| |].
  - assert ((e2 <=? emax - prec) = true) as ->.
    { apply Z.leb_le. change (emax - prec) with 971. lia. }
    simpl. change (Z.pos (digits2_pos m)) with (Zdigits2 (Z.pos m)). lia.
  - pose proof (Z.shiftr_nonneg r (e2 - e1)). lia.
Qed.

(** A rounding of a non-zero value in the normal range gives a non-zero
    finite float. *)
Lemma binary_round_aux_finite (sx : bool) (mx ex : Z) (lx : location) (k : Z) :
  0 < mx → ex ≤ 971 → -1021 ≤ Zdigits2 mx + ex → Zdigits2 mx + ex ≤ k → k ≤ 1023 →
  ∃ m e, binary_round_aux prec emax sx mx ex lx = S754_finite sx m e
         ∧ Zdigits2 (Z.pos m) + e ≤ k + 1.
Proof.
  intros Hm Hex Hlow Hk Hrange.
  destruct (binary_round_aux_mag sx mx ex lx k) as [Hmag _]; [lia..|].
  destruct (binary_round_aux_cases sx mx ex lx ltac:(lia))
    as (m1 & r & m2 & e1 & e2 & He1 & Hm1 & Hr & He2 & Hm2 & Heq).
  rewrite Heq in Hmag |- *. rewrite fexp_eq in He1, He2.
  assert (0 ≤ e1 - ex) as Hn1 by lia. assert (0 ≤ e2 - e1) as Hn2 by lia.
  pose proof (Zdigits2_shiftr mx (e1 - ex) ltac:(lia) Hn1) as Hd1. rewrite <- Hm1 in Hd1.
  assert (0 ≤ m1) as Hm1' by (rewrite Hm1; apply Z.shiftr_nonneg; lia).
  assert (0 ≤ r) as Hr' by lia.
  pose proof (Zdigits2_shiftr r (e2 - e1) Hr' Hn2) as Hd2. rewrite <- Hm2 in Hd2.
  pose proof (Zdigits2_le m1 r Hm1' ltac:(lia)) as Hdr.
  pose proof (proj1 (Zdigits2_pos_iff mx ltac:(lia)) Hm) as Hdx.
  assert (0 < m2) as Hm2'.
  { apply Zdigits2_pos_iff; [rewrite Hm2; by apply Z.shiftr_nonneg|]. lia. }
  destruct m2 as [|m|m]; [lia| |lia].
  destruct (e2 <=? emax - prec); [|done]. by exists m, e2.
Qed.


Lemma shl_align_spec (mx : positive) (ex ex' : Z) :
  (shl_align mx ex ex').2 = Z.min ex ex'
  ∧ Zdigits2 (Z.pos (shl_align mx ex ex').1) + (shl_align mx ex ex').2
    = Zdigits2 (Z.pos mx) + ex.
Proof.
  unfold shl_align. destruct (ex' - ex) as [|d|d] eqn:Hd; simpl; [lia..|].
  split; [lia|].
  change (Pos.iter xO mx d) with (shift_pos d mx).
  change (Z.pos (digits2_pos ?p)) with (Zdigits2 (Z.pos p)).
  rewrite !Zdigits2_log2, shift_pos_correct, Z.pow_pos_fold by lia.
  rewrite Z.mul_comm, Z.log2_mul_pow2 by lia. lia.
Qed.

(** An integer below [2^63] converts to a finite float, which is not zero
    unless the integer is. *)
Lemma binary_normalize_int (p : positive) :
  Z.pos p < 2 ^ 63 →
  ∃ m e, binary_normalize prec emax (Z.pos p) 0 false = S754_finite false m e
         ∧ Zdigits2 (Z.pos m) + e ≤ 64.
Proof.
  intros Hp. unfold binary_normalize, binary_round.
  destruct (shl_align_spec p 0 (fexp prec emax (Z.pos (digits2_pos p) + 0))) as [He Hd].
  destruct (shl_align p 0 _) as [mz ez]. simpl in He, Hd.
  assert (Zdigits2 (Z.pos p) ≤ 63) as Hdig.
  { rewrite Zdigits2_log2 by lia.
    assert (Z.log2 (Z.pos p) < 63); [|lia]. apply Z.log2_lt_pow2; lia. }
  pose proof (proj1 (Zdigits2_pos_iff (Z.pos p) ltac:(lia)) ltac:(lia)) as Hpos.
  change (Z.pos (digits2_pos ?q)) with (Zdigits2 (Z.pos q)) in *.
  apply (binary_round_aux_finite false (Z.pos mz) ez loc_Exact 63); lia.
Qed.

Lemma float_of_Z_nonneg (z : Z) :
  0 ≤ z →
  Prim2SF (float_of_Z z) = binary_normalize prec emax (z mod 2 ^ 63) 0 false.
Proof.
  intros Hz. unfold float_of_Z.
  destruct (z <? 0) eqn:Hneg; [apply Z.ltb_lt in Hneg; lia|].
  by rewrite FloatAxioms.of_uint63_spec, of_Z_spec.
Qed.

(** The core of the division: a quotient that is not negative and not
    larger than the exact one. *)
Lemma SFdiv_core_binary_spec (m1 m2 : positive) (e1 e2 : Z) :
  let '(q, e', _) := SFdiv_core_binary prec emax (Z.pos m1) e1 (Z.pos m2) e2 in
  0 ≤ q ∧ e' ≤ e1 - e2 ∧ Zdigits2 q + e' ≤ Zdigits2 (Z.pos m1) + e1 - e2.
Proof.
  unfold SFdiv_core_binary.
  set (e' := Z.min _ _).
  assert (e' ≤ e1 - e2) as He' by (subst e'; lia).
  set (m' := match e1 - e2 - e' with Z.pos _ => _ | 0 => _ | Z.neg _ => _ end).
  assert (0 < m' ∧ Zdigits2 m' + e' = Zdigits2 (Z.pos m1) + e1 - e2) as [Hm' Hd'].
  { subst m'. destruct (e1 - e2 - e') as [|s|s] eqn:Hs; [split; lia| |lia].
    assert (0 < Z.shiftl (Z.pos m1) (Z.pos s)) as Hpos.
    { rewrite Z.shiftl_mul_pow2 by lia.
      apply Z.mul_pos_pos; [lia|]. apply Z.pow_pos_nonneg; lia. }
    split; [done|]. rewrite !Zdigits2_log2, Z.log2_shiftl by lia. lia. }
  pose proof (Z_div_mod m' (Z.pos m2) ltac:(lia)) as Hdiv.
  destruct (Z.div_eucl m' (Z.pos m2)) as [q r]. destruct Hdiv as [Hq Hr].
  assert (0 ≤ q) as Hq0 by nia.
  split_and!; [done..|].
  assert (q ≤ m') as Hqm by nia.
  pose proof (Zdigits2_le q m' Hq0 Hqm). lia.
Qed.

Lemma one_million_spec : Prim2SF 1000000%float = one_million_SF.
Proof. reflexivity. Qed.

(** A microsecond count that is not negative converts to a finite float
    that is not negative. *)
Lemma micros_finite (d : Z) :
  0 ≤ d →
  finite_nonneg (Prim2SF (total_seconds d * 1000000)%float).
Proof.
  intros Hd0. unfold total_seconds.
  rewrite FloatAxioms.mul_spec, FloatAxioms.div_spec, one_million_spec, float_of_Z_nonneg by done.
  pose proof (Z.mod_pos_bound d (2 ^ 63) ltac:(lia)) as Hd.
  destruct (d mod 2 ^ 63) as [|p|p]; [done| |lia].
  destruct (binary_normalize_int p ltac:(lia)) as (m & e & -> & Hmag).
  unfold SF64mul, SF64div, SFdiv, one_million_SF. change (xorb false false) with false.
  pose proof (SFdiv_core_binary_spec m 8589934592000000 e (-33)) as Hcore.
  destruct (SFdiv_core_binary _ _ _ _ _ _) as [[q e'] l].
  destruct Hcore as (Hq & He' & Hdq).
  assert (e ≤ 63) as He.
  { pose proof (proj1 (Zdigits2_pos_iff (Z.pos m) ltac:(lia)) ltac:(lia)). lia. }
  destruct (binary_round_aux_mag false q e' l 97) as [Hmq Hsq]; [lia..|].
  destruct (binary_round_aux prec emax false q e' l)
    as [s|s| |s mq eq]; cbn [mag_le signed_as] in Hmq, Hsq; try done; subst s;
    cbn [SFmul xorb]; [done|].
  assert (Zdigits2 (Z.pos (mq * 8589934592000000)) ≤ Zdigits2 (Z.pos mq) + 53) as Hprod.
  { rewrite !Zdigits2_log2, Pos2Z.inj_mul by lia.
    pose proof (Z.log2_mul_above (Z.pos mq) 8589934592000000 ltac:(lia) ltac:(lia)) as H.
    change (Z.log2 8589934592000000) with 52 in H. lia. }
  assert (eq ≤ 97) as Heq.
  { pose proof (proj1 (Zdigits2_pos_iff (Z.pos mq) ltac:(lia)) ltac:(lia)). lia. }
  destruct (binary_round_aux_mag false (Z.pos (mq * 8589934592000000)) (eq + -33)
              loc_Exact 200) as [Hmx Hsx]; [lia..|].
  destruct (binary_round_aux prec emax false _ _ _) as [s|s| |s mx ex];
    cbn [mag_le signed_as] in Hmx, Hsx; try done; by subst s.
Qed.


(** ** Values that are not negative *)

Lemma signed_as_nonneg (x : spec_float) : signed_as false x → nonneg x.
Proof. by destruct x as [[]|[]| |[] m e]. Qed.

Lemma signed_as_not_nan (s : bool) (x : spec_float) : signed_as s x → x ≠ S754_nan.
Proof. by destruct x. Qed.

Lemma finite_nonneg_nonneg (x : spec_float) : finite_nonneg x → nonneg x.
Proof. by destruct x as [[]|[]| |[] m e]. Qed.

Lemma binary_round_signed (sx : bool) (mx : positive) (ex : Z) :
  signed_as sx (binary_round prec emax sx mx ex).
Proof.
  unfold binary_round. destruct (shl_align mx ex _) as [mz ez].
  by apply binary_round_aux_signed.
Qed.

Lemma binary_normalize_not_nan (m e : Z) : binary_normalize prec emax m e false ≠ S754_nan.
Proof.
  destruct m as [|p|p]; simpl; [done|..];
    eapply signed_as_not_nan, binary_round_signed.
Qed.

Lemma SFadd_nonneg (x y : spec_float) :
  nonneg x → nonneg y → nonneg (SFadd prec emax x y).
Proof.
  destruct x as [[]|[]| |[] mx ex], y as [[]|[]| |[] my ey]; try done.
  intros _ _. unfold SFadd, cond_Zopp, binary_normalize.
  rewrite <- Pos2Z.inj_add. apply signed_as_nonneg, binary_round_signed.
Qed.

Lemma SFdiv_nonneg (x y : spec_float) :
  nonneg x → finite_pos y → nonneg (SFdiv prec emax x y).
Proof.
  destruct x as [[]|[]| |[] mx ex], y as [[]|[]| |[] my ey]; try done.
  intros _ _. unfold SFdiv.
  pose proof (SFdiv_core_binary_spec mx my ex ey) as Hcore.
  destruct (SFdiv_core_binary _ _ _ _ _ _) as [[q e'] l]. destruct Hcore as (Hq & _).
  by apply signed_as_nonneg, binary_round_aux_signed.
Qed.

Lemma SFsub_not_nan (x y : spec_float) :
  finite_nonneg x → nonneg y → SFsub prec emax x y ≠ S754_nan.
Proof.
  destruct x as [[]|[]| |[] mx ex], y as [[]|[]| |[] my ey]; try done.
  intros _ _. apply binary_normalize_not_nan.
Qed.

Lemma SFmul_self_nonneg (x : spec_float) :
  x ≠ S754_nan → nonneg (SFmul prec emax x x).
Proof.
  destruct x as [[]|[]| |s m e]; try done.
  intros _. unfold SFmul. apply signed_as_nonneg.
  replace (xorb s s) with false by (by destruct s).
  by apply binary_round_aux_signed.
Qed.

Lemma SFsqrt_nonneg (x : spec_float) : nonneg x → nonneg (SFsqrt prec emax x).
Proof.
  destruct x as [[]|[]| |[] m e]; try done.
  intros _. unfold SFsqrt, SFsqrt_core_binary.
  set (m' := match _ with Z.pos _ => _ | 0 => _ | Z.neg _ => _ end).
  pose proof (Z.sqrtrem_sqrt m') as Hs. pose proof (Z.sqrt_nonneg m') as Hn.
  destruct (Z.sqrtrem m') as [q r]. simpl in Hs. subst q.
  by apply signed_as_nonneg, binary_round_aux_signed.
Qed.

(** The same for the primitive floats. *)
Lemma add_nonneg (x y : float) :
  nonneg (Prim2SF x) → nonneg (Prim2SF y) → nonneg (Prim2SF (x + y)%float).
Proof. rewrite FloatAxioms.add_spec. apply SFadd_nonneg. Qed.

Lemma div_nonneg (x y : float) :
  nonneg (Prim2SF x) → finite_pos (Prim2SF y) → nonneg (Prim2SF (x / y)%float).
Proof. rewrite FloatAxioms.div_spec. apply SFdiv_nonneg. Qed.

Lemma square_distance_nonneg (x mu : float) :
  finite_nonneg (Prim2SF x) → nonneg (Prim2SF mu) →
  nonneg (Prim2SF ((x - mu) * (x - mu))%float).
Proof.
  intros Hx Hmu. rewrite FloatAxioms.mul_spec. apply SFmul_self_nonneg.
  rewrite FloatAxioms.sub_spec. by apply SFsub_not_nan.
Qed.

Lemma sqrt_nonneg (x : float) :
  nonneg (Prim2SF x) → nonneg (Prim2SF (PrimFloat.sqrt x)).
Proof. rewrite FloatAxioms.sqrt_spec. apply SFsqrt_nonneg. Qed.

Lemma nonneg_is_nan (x : float) : nonneg (Prim2SF x) → PrimFloat.is_nan x = false.
Proof.
  intros H. unfold PrimFloat.is_nan. rewrite FloatAxioms.eqb_spec.
  unfold SFeqb, SFcompare.
  destruct (Prim2SF x) as [[]|[]| |[] m e]; try done. simpl.
  by rewrite Z.compare_refl, Pos.compare_cont_refl.
Qed.

Lemma nonneg_not_below_zero (x : float) : nonneg (Prim2SF x) → (x <? 0)%float = false.
Proof.
  intros H. rewrite FloatAxioms.ltb_spec.
  change (Prim2SF 0) with (S754_zero false).
  by destruct (Prim2SF x) as [[]|[]| |[] m e].
Qed.

Local Close Scope Z_scope.

(** The number of elements of a list that Python can hold, as a float. *)
Lemma float_of_nat_pos (n : nat) :
  0 < n → (Z.of_nat n < 2 ^ 63)%Z → finite_pos (Prim2SF (float_of_nat n)).
Proof.
  intros Hn Hlt. unfold float_of_nat. rewrite float_of_Z_nonneg by lia.
  rewrite Z.mod_small by lia.
  destruct (Z.of_nat n) as [|p|p] eqn:Hp; [lia| |lia].
  by destruct (binary_normalize_int p Hlt) as (m & e & -> & _).
Qed.

Lemma fold_add_nonneg (a : list float) (acc : float) :
  nonneg (Prim2SF acc) → Forall (fun x => nonneg (Prim2SF x)) a →
  nonneg (Prim2SF (fold_left PrimFloat.add a acc)).
Proof.
  intros Hacc Ha. revert acc Hacc.
  induction Ha as [|x a Hx _ IH]; intros acc Hacc; simpl; [done|].
  apply IH. by apply add_nonneg.
Qed.

Lemma np_sum_nonneg (a : list float) :
  Forall (fun x => nonneg (Prim2SF x)) a → nonneg (Prim2SF (np_sum a)).
Proof. intros Ha. by apply fold_add_nonneg. Qed.

Lemma np_mean_nonneg (a : list float) :
  Forall (fun x => nonneg (Prim2SF x)) a →
  finite_pos (Prim2SF (float_of_nat (length a))) →
  nonneg (Prim2SF (np_mean a)).
Proof. intros Ha Hn. apply div_nonneg; [by apply np_sum_nonneg|done]. Qed.

Lemma np_std_nonneg (a : list float) :
  Forall (fun x => finite_nonneg (Prim2SF x)) a →
  finite_pos (Prim2SF (float_of_nat (length a))) →
  nonneg (Prim2SF (np_std a)).
Proof.
  intros Ha Hn. unfold np_std.
  assert (Forall (fun x => nonneg (Prim2SF x)) a) as Ha'.
  { eapply Forall_impl; [exact Ha|]. intros x. apply finite_nonneg_nonneg. }
  pose proof (np_mean_nonneg a Ha' Hn) as Hmean. unfold np_mean in Hmean.
  apply sqrt_nonneg, div_nonneg; [|done]. apply np_sum_nonneg.
  rewrite map_map. apply Forall_map.
  eapply Forall_impl; [exact Ha|]. intros x Hx. by apply square_distance_nonneg.
Qed.

Lemma py_max_nonneg (d : float) (ds : list float) :
  Forall (fun x => nonneg (Prim2SF x)) (d :: ds) → nonneg (Prim2SF (py_max d ds)).
Proof.
  unfold py_max. intros [Hd Hds]%Forall_cons. revert d Hd.
  induction Hds as [|x ds Hx _ IH]; intros d Hd; simpl; [done|].
  destruct (d <? x)%float; by apply IH.
Qed.

(** ** Sorting *)

Lemma list_sort_perm (l : list Z) : list_sort l ≡ₚ l.
Proof. apply merge_sort_Permutation. Qed.

Lemma list_sort_sorted (l : list Z) : StronglySorted Z.le (list_sort l).
Proof. apply (StronglySorted_merge_sort _). Qed.

Lemma list_sort_unique (l l' : list Z) :
  StronglySorted Z.le l' → l' ≡ₚ l → list_sort l = l'.
Proof.
  intros Hs Hp. apply (StronglySorted_unique Z.le).
  - apply list_sort_sorted.
  - done.
  - by rewrite list_sort_perm.
Qed.

Lemma list_sort_id (l : list Z) : StronglySorted Z.le l → list_sort l = l.
Proof. intros. by apply list_sort_unique. Qed.

Lemma list_sort_proper (l l' : list Z) : l ≡ₚ l' → list_sort l = list_sort l'.
Proof.
  intros Hp. apply list_sort_unique; [apply list_sort_sorted|].
  by rewrite list_sort_perm.
Qed.

Lemma calculate_time_diff_proper (l l' : list Z) :
  l ≡ₚ l' → calculate_time_diff l = calculate_time_diff l'.
Proof.
  intros Hp. unfold calculate_time_diff.
  rewrite <- (Permutation_length Hp).
  case_decide as Hlen.
  - f_equal. destruct l as [|a [|b l]]; simpl in Hlen; try lia.
    + by apply Permutation_nil_l in Hp.
    + by apply Permutation_singleton_l in Hp.
  - by rewrite (list_sort_proper _ _ Hp).
Qed.

(** ** The direction classifier, packet by packet *)

Local Ltac split_bool_decide :=
  match goal with
  | |- context [bool_decide ?P] =>
      let E := fresh in
      destruct (bool_decide P) eqn:E;
      [apply bool_decide_eq_true in E | apply bool_decide_eq_false in E]
  end.

(* A packet that contributes nothing, whatever its direction. *)
Local Ltac skipped_packet :=
  repeat match goal with
    | |- context [if ?c then [] else []] =>
        replace (if c then [] else []) with (@nil Z) by (by destruct c)
    end;
  rewrite ?app_nil_r.

Lemma try_packet_spec (ip port : json) (p : packet) (st : times) :
  ∃ oe : option exn,
    try_packet ip port p st =
      (Times (forward_packet_times st ++ forward_stamp ip port p)
             (backward_packet_times st ++ backward_stamp ip port p)
             (all_packet_times st ++ stamp p), oe)
    ∧ (if fatal p then oe = Some not_str else escapes oe = false).
Proof.
  destruct st as [f b a].
  unfold try_packet, getitem, fatal, forward_stamp, backward_stamp, stamp,
    is_forward, is_backward.
  destruct (p !! "timestamp") as [[t|s|n]|]; simpl.
  - destruct (p !! "src_ip") as [ip'|]; simpl;
      [destruct (decide (ip' = ip)) as [->|Hip];
       [destruct (p !! "src_port") as [port'|]; simpl;
        [destruct (decide (port' = port)) as [->|Hport]|]|]|].
    all: repeat split_bool_decide; try (exfalso; intuition congruence).
    all: eexists; rewrite ?app_nil_r; split; reflexivity.
  - eexists. split; [by skipped_packet | reflexivity].
  - eexists. split; [by skipped_packet | reflexivity].
  - eexists. split; [by skipped_packet | reflexivity].
Qed.

Lemma parse_loop_spec (ip port : json) (pd : list packet) (st : times) :
  parse_loop ip port pd st =
    if existsb fatal pd then Raise not_str
    else Ok (Times (forward_packet_times st ++ flat_map (forward_stamp ip port) pd)
                   (backward_packet_times st ++ flat_map (backward_stamp ip port) pd)
                   (all_packet_times st ++ flat_map stamp pd)).
Proof.
  revert st. induction pd as [|p pd IH]; intros st; simpl.
  { destruct st. by rewrite !app_nil_r. }
  destruct (try_packet_spec ip port p st) as (oe & -> & Hoe).
  destruct (fatal p); simpl.
  - by rewrite Hoe.
  - assert (parse_loop ip port pd
              (Times (forward_packet_times st ++ forward_stamp ip port p)
                     (backward_packet_times st ++ backward_stamp ip port p)
                     (all_packet_times st ++ stamp p)) =
            match oe with
            | None | Some (KeyError _) | Some (ValueError _) =>
                parse_loop ip port pd
                  (Times (forward_packet_times st ++ forward_stamp ip port p)
                     (backward_packet_times st ++ backward_stamp ip port p)
                     (all_packet_times st ++ stamp p))
            | Some e => Raise e
            end) as <- by (by destruct oe as [[]|]).
    rewrite IH. simpl. by rewrite <- !app_assoc.
Qed.

Lemma parse_packet_data_spec (p0 : packet) (rest : list packet) (ip port : json) :
  p0 !! "src_ip" = Some ip → p0 !! "src_port" = Some port →
  parse_packet_data (p0 :: rest) =
    if existsb fatal (p0 :: rest) then Raise not_str
    else Ok (Times (flat_map (forward_stamp ip port) (p0 :: rest))
                   (flat_map (backward_stamp ip port) (p0 :: rest))
                   (flat_map stamp (p0 :: rest))).
Proof.
  intros Hip Hport. unfold parse_packet_data, getitem. rewrite Hip, Hport. cbv beta iota delta [rbind].
  by rewrite parse_loop_spec.
Qed.

Lemma sent_at_stamp ip port t p : sent_at ip port t p → stamp p = [t].
Proof. intros (Ht & _). unfold stamp. by rewrite Ht. Qed.

Lemma sent_at_fatal ip port t p : sent_at ip port t p → fatal p = false.
Proof. intros (Ht & _). unfold fatal. by rewrite Ht. Qed.

Lemma sent_at_forward ip port t p :
  sent_at ip port t p → forward_stamp ip port p = [t] ∧ backward_stamp ip port p = [].
Proof.
  intros H. pose proof (sent_at_stamp _ _ _ _ H) as Hs. destruct H as (_ & Hip & Hport).
  unfold forward_stamp, backward_stamp, is_forward, is_backward.
  rewrite Hip, Hport, Hs, bool_decide_eq_true_2, decide_True, bool_decide_eq_false_2; naive_solver.
Qed.

(** ** Inter-arrival times of a list that is already in order *)

Lemma calculate_time_diff_sorted (l : list Z) :
  StronglySorted Z.le l → calculate_time_diff l = (time_diffs l, l).
Proof.
  intros Hs. unfold calculate_time_diff. case_decide as Hlen.
  - by destruct l as [|a [|b l]]; simpl in *; try lia.
  - by rewrite (list_sort_id l Hs).
Qed.

(** In every case the call returns the gaps of the sorted list and leaves
    the list sorted. *)
Lemma calculate_time_diff_eq (l : list Z) :
  calculate_time_diff l = (time_diffs (list_sort l), list_sort l).
Proof.
  unfold calculate_time_diff. case_decide as Hlen; [|done].
  by destruct l as [|a [|b l]]; simpl in *; try lia.
Qed.

Lemma calculate_time_diff_state (l : list Z) :
  calculate_time_diff (calculate_time_diff l).2 = calculate_time_diff l.
Proof.
  rewrite (calculate_time_diff_eq l). simpl.
  apply calculate_time_diff_sorted, list_sort_sorted.
Qed.

(** ** The extractors as functions of the inter-arrival times *)

Lemma idle_times_eq (l : list Z) (T : float) :
  calculate_idle_times l T =
    (List.filter (fun diff => (T <? diff)%float) (inter_arrival_times l),
     (calculate_time_diff l).2).
Proof.
  unfold calculate_idle_times, inter_arrival_times.
  by destruct (calculate_time_diff l).
Qed.

Local Ltac extractor_eq :=
  intros; unfold extract_fwd_iat_std, extract_bwd_iat_std, extract_flow_iat_std,
    extract_fwd_iat_max, extract_flow_iat_mean, extract_flow_iat_max,
    extract_fwd_iat_mean, extract_fwd_iat_total, extract_bwd_iat_max,
    extract_idle_max, extract_idle_mean;
  rewrite ?idle_times_eq; unfold inter_arrival_times,
    std_reducer, mean_reducer, max_reducer, sum_reducer;
  destruct (calculate_time_diff _) as [iats st]; simpl;
  repeat match goal with
    | |- context [decide ?P] => destruct (decide P)
    | |- context [match ?l with [] => _ | _ :: _ => _ end] => destruct l
    end; reflexivity.

Lemma extract_fwd_iat_std_eq l :
  extract_fwd_iat_std l = (std_reducer (inter_arrival_times l), (calculate_time_diff l).2).
Proof. extractor_eq. Qed.

Lemma extract_bwd_iat_std_eq l :
  extract_bwd_iat_std l = (std_reducer (inter_arrival_times l), (calculate_time_diff l).2).
Proof. extractor_eq. Qed.

Lemma extract_flow_iat_std_eq l :
  extract_flow_iat_std l = (std_reducer (inter_arrival_times l), (calculate_time_diff l).2).
Proof. extractor_eq. Qed.

Lemma extract_fwd_iat_max_eq l :
  extract_fwd_iat_max l = (max_reducer (inter_arrival_times l), (calculate_time_diff l).2).
Proof. extractor_eq. Qed.

Lemma extract_flow_iat_mean_eq l :
  extract_flow_iat_mean l = (mean_reducer (inter_arrival_times l), (calculate_time_diff l).2).
Proof. extractor_eq. Qed.

Lemma extract_flow_iat_max_eq l :
  extract_flow_iat_max l = (max_reducer (inter_arrival_times l), (calculate_time_diff l).2).
Proof. extractor_eq. Qed.

Lemma extract_fwd_iat_mean_eq l :
  extract_fwd_iat_mean l = (mean_reducer (inter_arrival_times l), (calculate_time_diff l).2).
Proof. extractor_eq. Qed.

Lemma extract_fwd_iat_total_eq l :
  extract_fwd_iat_total l = (sum_reducer (inter_arrival_times l), (calculate_time_diff l).2).
Proof. extractor_eq. Qed.

Lemma extract_bwd_iat_max_eq l :
  extract_bwd_iat_max l = (max_reducer (inter_arrival_times l), (calculate_time_diff l).2).
Proof. extractor_eq. Qed.

Lemma extract_idle_max_eq l T :
  extract_idle_max l T = (max_reducer (idle_times l T), (calculate_time_diff l).2).
Proof. unfold idle_times. rewrite idle_times_eq. extractor_eq. Qed.

Lemma extract_idle_mean_eq l T :
  extract_idle_mean l T = (mean_reducer (idle_times l T), (calculate_time_diff l).2).
Proof. unfold idle_times. rewrite idle_times_eq. extractor_eq. Qed.

Lemma inter_arrival_times_state (l : list Z) :
  inter_arrival_times (calculate_time_diff l).2 = inter_arrival_times l.
Proof. unfold inter_arrival_times. by rewrite calculate_time_diff_state. Qed.

Lemma idle_times_state (l : list Z) (T : float) :
  idle_times (calculate_time_diff l).2 T = idle_times l T.
Proof.
  unfold idle_times. by rewrite !idle_times_eq, inter_arrival_times_state.
Qed.

(** ** Flow duration *)

Lemma max_time_spec (t0 : Z) (rest : list Z) :
  max_time t0 rest ∈ t0 :: rest ∧ Forall (fun x => (x ≤ max_time t0 rest)%Z) (t0 :: rest).
Proof.
  unfold max_time. revert t0. induction rest as [|x rest IH]; intros t0; simpl.
  - split; [by left|]. repeat constructor. lia.
  - destruct (IH (Z.max t0 x)) as [Hin Hall]. split.
    + apply elem_of_cons in Hin as [->|Hin]; [|by do 2 right].
      destruct (Z.max_spec t0 x) as [[_ ->]|[_ ->]]; rewrite !elem_of_cons; auto.
    + inversion_clear Hall as [|? ? Hm Hrest]. repeat constructor; [lia..|done].
Qed.

Lemma min_time_spec (t0 : Z) (rest : list Z) :
  min_time t0 rest ∈ t0 :: rest ∧ Forall (fun x => (min_time t0 rest ≤ x)%Z) (t0 :: rest).
Proof.
  unfold min_time. revert t0. induction rest as [|x rest IH]; intros t0; simpl.
  - split; [by left|]. repeat constructor. lia.
  - destruct (IH (Z.min t0 x)) as [Hin Hall]. split.
    + apply elem_of_cons in Hin as [->|Hin]; [|by do 2 right].
      destruct (Z.min_spec t0 x) as [[_ ->]|[_ ->]]; rewrite !elem_of_cons; auto.
    + inversion_clear Hall as [|? ? Hm Hrest]. repeat constructor; [lia..|done].
Qed.

Lemma max_time_proper (t0 t0' : Z) (rest rest' : list Z) :
  t0 :: rest ≡ₚ t0' :: rest' → max_time t0 rest = max_time t0' rest'.
Proof.
  intros Hp.
  destruct (max_time_spec t0 rest) as [Hin Hall], (max_time_spec t0' rest') as [Hin' Hall'].
  rewrite Hp in Hin, Hall.
  rewrite Forall_forall in Hall, Hall'.
  apply Z.le_antisymm; [apply Hall', Hin | apply Hall, Hin'].
Qed.

Lemma min_time_proper (t0 t0' : Z) (rest rest' : list Z) :
  t0 :: rest ≡ₚ t0' :: rest' → min_time t0 rest = min_time t0' rest'.
Proof.
  intros Hp.
  destruct (min_time_spec t0 rest) as [Hin Hall], (min_time_spec t0' rest') as [Hin' Hall'].
  rewrite Hp in Hin, Hall.
  rewrite Forall_forall in Hall, Hall'.
  apply Z.le_antisymm; [apply Hall, Hin' | apply Hall', Hin].
Qed.

Lemma extract_flow_duration_proper (l l' : list Z) :
  l ≡ₚ l' → extract_flow_duration l = extract_flow_duration l'.
Proof.
  intros Hp. pose proof (Permutation_length Hp) as Hlen.
  destruct l as [|a [|b l]], l' as [|a' [|b' l']]; simpl in Hlen; try done.
  unfold extract_flow_duration.
  by rewrite (max_time_proper _ _ _ _ Hp), (min_time_proper _ _ _ _ Hp).
Qed.

Lemma extract_flow_duration_state (l : list Z) :
  extract_flow_duration (calculate_time_diff l).2 = extract_flow_duration l.
Proof.
  rewrite calculate_time_diff_eq. apply extract_flow_duration_proper, list_sort_perm.
Qed.

(** ** The feature dictionary as a function of the three lists *)

Lemma extract_all_features_eq (packet_data : list packet) :
  extract_all_features packet_data =
    let? t := parse_packet_data packet_data in Ok (features_of t).
Proof.
  unfold extract_all_features.
  destruct (parse_packet_data packet_data) as [[fwd bwd all]|e]; [|done].
  cbv beta iota delta [rbind forward_packet_times backward_packet_times all_packet_times].
  rewrite extract_fwd_iat_std_eq, extract_bwd_iat_std_eq, extract_flow_iat_std_eq.
  rewrite extract_fwd_iat_max_eq, extract_flow_iat_mean_eq, extract_flow_iat_max_eq.
  rewrite extract_fwd_iat_mean_eq, extract_fwd_iat_total_eq, extract_bwd_iat_max_eq.
  rewrite extract_idle_max_eq, extract_idle_mean_eq.
  unfold features_of. cbv beta iota zeta delta [forward_packet_times backward_packet_times all_packet_times].
  rewrite ?calculate_time_diff_state, ?extract_flow_duration_state,
    ?inter_arrival_times_state, ?idle_times_state.
  reflexivity.
Qed.
Lemma three_gaps_sorted (t : Z) : StronglySorted Z.le [t; t + 1000; t + 3000]%Z.
Proof. repeat constructor; lia. Qed.

Lemma three_gaps_diff (t : Z) :
  calculate_time_diff [t; t + 1000; t + 3000]%Z
  = ([1000; 2000]%float, [t; t + 1000; t + 3000]%Z).
Proof.
  rewrite calculate_time_diff_sorted by apply three_gaps_sorted.
  f_equal. simpl.
  replace (t + 1000 - t)%Z with 1000%Z by lia.
  replace (t + 3000 - (t + 1000))%Z with 2000%Z by lia.
  reflexivity.
Qed.

(** C1 (as amended): three packets sent from the initiator at [t],
    [t + 1000µs] and [t + 3000µs] have the forward inter-arrival times
    [1000, 2000]: their mean is 1500.0, their maximum 2000.0, their sum
    3000.0 and their population standard deviation 500.0; both backward
    features are 0.0.  The whole feature dictionary is as displayed. *)
Theorem C1_three_forward_packets (ip port : json) (t : Z) (p1 p2 p3 : packet) :
  sent_at ip port t p1 →
  sent_at ip port (t + 1000) p2 →
  sent_at ip port (t + 3000) p3 →
  extract_all_features [p1; p2; p3] =
    Ok [ ("Fwd IAT Std", 500%float);
         ("Bwd IAT Std", 0%float);
         ("Flow IAT Std", 500%float);
         ("Fwd IAT Max", 2000%float);
         ("Flow IAT Mean", 1500%float);
         ("Flow IAT Max", 2000%float);
         ("Fwd IAT Mean", 1500%float);
         ("Fwd IAT Total", 3000%float);
         ("Flow Duration", 3000%float);
         ("Bwd IAT Max", 0%float);
         ("Idle Max", 0%float);
         ("Idle Mean", 0%float) ].
Proof.
  intros H1 H2 H3. rewrite extract_all_features_eq.
  rewrite (parse_packet_data_spec p1 [p2; p3] ip port) by apply H1.
  cbn [existsb flat_map].
  rewrite (sent_at_fatal _ _ _ _ H1), (sent_at_fatal _ _ _ _ H2), (sent_at_fatal _ _ _ _ H3).
  rewrite (sent_at_stamp _ _ _ _ H1), (sent_at_stamp _ _ _ _ H2), (sent_at_stamp _ _ _ _ H3).
  destruct (sent_at_forward _ _ _ _ H1) as [-> ->].
  destruct (sent_at_forward _ _ _ _ H2) as [-> ->].
  destruct (sent_at_forward _ _ _ _ H3) as [-> ->].
  cbn [orb app rbind]. unfold features_of, idle_times.
  cbn [forward_packet_times backward_packet_times all_packet_times].
  rewrite idle_times_eq. unfold inter_arrival_times. rewrite three_gaps_diff.
  unfold extract_flow_duration, max_time, min_time. cbn [fold_left].
  replace (Z.max (Z.max t (t + 1000)) (t + 3000) - Z.min (Z.min t (t + 1000)) (t + 3000))%Z
    with 3000%Z by lia.
  reflexivity.
Qed.

Lemma C1_three_forward_packets_witness :
  extract_all_features three_forward =
    Ok [ ("Fwd IAT Std", 500%float);
         ("Bwd IAT Std", 0%float);
         ("Flow IAT Std", 500%float);
         ("Fwd IAT Max", 2000%float);
         ("Flow IAT Mean", 1500%float);
         ("Flow IAT Max", 2000%float);
         ("Fwd IAT Mean", 1500%float);
         ("Fwd IAT Total", 3000%float);
         ("Flow Duration", 3000%float);
         ("Bwd IAT Max", 0%float);
         ("Idle Max", 0%float);
         ("Idle Mean", 0%float) ].
Proof.
  apply (C1_three_forward_packets host_a (JNum 40000) 0); repeat split; reflexivity.
Defined.

(** C1 (as stated, refuted): on the flow of the scenario the mean is 1500.0,
    not 2000.0, and the standard deviation is 500.0, not 1000.0. *)
Lemma C1_spec_values_refuted :
  feature three_forward "Fwd IAT Mean" = Ok 1500%float
  ∧ feature three_forward "Fwd IAT Std" = Ok 500%float
  ∧ 1500%float ≠ 2000%float
  ∧ 500%float ≠ 1000%float.
Proof.
  repeat split; try (vm_compute; reflexivity).
  all: apply float_neq; vm_compute; discriminate.
Qed.

(** ** Well-formed requests *)

Lemma missing_fields_nil (p : packet) :
  missing_fields p = [] →
  is_Some (p !! "timestamp") ∧ is_Some (p !! "src_ip") ∧ is_Some (p !! "dst_ip")
  ∧ is_Some (p !! "src_port") ∧ is_Some (p !! "dst_port").
Proof.
  unfold missing_fields, required_fields. cbn [List.filter].
  destruct (p !! "timestamp"), (p !! "src_ip"), (p !! "dst_ip"),
    (p !! "src_port"), (p !! "dst_port"); cbn; by eauto 10.
Qed.



Lemma inter_arrival_times_short (l : list Z) :
  length l ≤ 1 → inter_arrival_times l = [].
Proof.
  intros Hlen. unfold inter_arrival_times, calculate_time_diff.
  by rewrite decide_True.
Qed.



Lemma stamp_length (p : packet) : length (stamp p) ≤ 1.
Proof. unfold stamp. destruct (p !! "timestamp") as [[]|]; simpl; lia. Qed.



(** ** Reordering the request *)

Lemma existsb_proper {A} (f : A → bool) (l l' : list A) :
  l ≡ₚ l' → existsb f l = existsb f l'.
Proof.
  induction 1 as [|x l l' _ IH|x y l|l1 l2 l3 _ IH1 _ IH2]; simpl.
  - done.
  - by rewrite IH.
  - by destruct (f x), (f y).
  - congruence.
Qed.

Lemma flat_map_proper {A B} (f : A → list B) (l l' : list A) :
  l ≡ₚ l' → flat_map f l ≡ₚ flat_map f l'.
Proof.
  induction 1 as [|x l l' _ IH|x y l|l1 l2 l3 _ IH1 _ IH2]; simpl.
  - done.
  - by rewrite IH.
  - rewrite !app_assoc. f_equiv. apply Permutation_app_comm.
  - by etrans.
Qed.

Lemma inter_arrival_times_proper (l l' : list Z) :
  l ≡ₚ l' → inter_arrival_times l = inter_arrival_times l'.
Proof. intros Hp. unfold inter_arrival_times. by rewrite (calculate_time_diff_proper l l'). Qed.

Lemma idle_times_proper (l l' : list Z) (T : float) :
  l ≡ₚ l' → idle_times l T = idle_times l' T.
Proof.
  intros Hp. unfold idle_times. by rewrite !idle_times_eq, (inter_arrival_times_proper l l').
Qed.

Lemma features_of_proper (t t' : times) :
  forward_packet_times t ≡ₚ forward_packet_times t' →
  backward_packet_times t ≡ₚ backward_packet_times t' →
  all_packet_times t ≡ₚ all_packet_times t' →
  features_of t = features_of t'.
Proof.
  intros Hf Hb Ha. unfold features_of.
  by rewrite (inter_arrival_times_proper _ _ Hf), (inter_arrival_times_proper _ _ Hb),
    (inter_arrival_times_proper _ _ Ha), (idle_times_proper _ _ _ Ha),
    (extract_flow_duration_proper _ _ Ha).
Qed.

Lemma extract_all_features_proper (pd pd' : list packet) :
  pd ≡ₚ pd' → initiator pd = initiator pd' →
  extract_all_features pd = extract_all_features pd'.
Proof.
  intros Hp Hi. rewrite !extract_all_features_eq.
  destruct pd as [|p0 rest], pd' as [|p0' rest'].
  - done.
  - by apply Permutation_nil_l in Hp.
  - by apply Permutation_nil_r in Hp.
  - injection Hi as Hip Hport.
    unfold parse_packet_data, getitem. rewrite <- Hip, <- Hport.
    destruct (p0 !! "src_ip") as [ip|]; [|done].
    destruct (p0 !! "src_port") as [port|]; [|done].
    cbv beta iota delta [rbind]. rewrite !parse_loop_spec.
    rewrite <- (existsb_proper fatal _ _ Hp).
    destruct (existsb fatal (p0 :: rest)); [done|].
    f_equal. apply features_of_proper;
      cbn [forward_packet_times backward_packet_times all_packet_times app];
      by apply flat_map_proper.
Qed.

(** C3 (as amended): the inter-arrival times of a list of time points do
    not depend on the order of the list, and the extractor returns the same
    dictionary, and the classifier receives the same vector, for two
    orderings of a request that begin with packets of one and the same
    source address and port. *)
Theorem C3_reordering (points points' : list Z) (packet_data packet_data' : list packet) :
  points ≡ₚ points' →
  packet_data ≡ₚ packet_data' →
  initiator packet_data = initiator packet_data' →
  inter_arrival_times points = inter_arrival_times points'
  ∧ extract_all_features packet_data = extract_all_features packet_data'
  ∧ feature_vector packet_data = feature_vector packet_data'.
Proof.
  intros Hpoints Hp Hi. split_and!.
  - by apply inter_arrival_times_proper.
  - by apply extract_all_features_proper.
  - unfold feature_vector. by rewrite (extract_all_features_proper _ _ Hp Hi).
Qed.

Lemma C3_reordering_witness :
  inter_arrival_times [3000; 0; 1000]%Z = inter_arrival_times [0; 1000; 3000]%Z
  ∧ extract_all_features two_way_swapped = extract_all_features two_way
  ∧ feature_vector two_way_swapped = feature_vector two_way.
Proof.
  apply (C3_reordering [3000; 0; 1000]%Z [0; 1000; 3000]%Z two_way_swapped two_way).
  - apply Permutation_cons_append.
  - apply perm_skip, perm_swap.
  - reflexivity.
Defined.

(** C3 (as stated, refuted): a shuffle that puts a packet of the other
    endpoint first changes the initiator, and with it the forward features. *)
Lemma C3_shuffle_changes_features :
  two_way_shuffled ≡ₚ two_way
  ∧ feature two_way "Fwd IAT Max" = Ok 1000%float
  ∧ feature two_way_shuffled "Fwd IAT Max" = Ok 0%float
  ∧ 1000%float ≠ 0%float
  ∧ feature_vector two_way ≠ feature_vector two_way_shuffled.
Proof.
  split_and!.
  - apply Permutation_cons_append.
  - vm_compute. reflexivity.
  - vm_compute. reflexivity.
  - apply float_neq. vm_compute. discriminate.
  - intros H. apply (f_equal (fun r => match r with
                                       | Ok (_ :: _ :: _ :: v :: _) => Prim2SF v
                                       | _ => S754_nan
                                       end)) in H.
    vm_compute in H. discriminate.
Qed.

(** ** The reducers on short sequences; the standard deviation *)

Lemma np_sum_total (data : list float) : np_sum data = float_total 0 data.
Proof.
  unfold np_sum. generalize 0%float as total.
  induction data as [|x data IH]; intros total; simpl; [done|]. apply IH.
Qed.

Lemma squared_distances_map (mu : float) (data : list float) :
  map (fun v => (v * v)%float) (map (fun v => (v - mu)%float) data)
  = squared_distances mu data.
Proof. induction data as [|x data IH]; simpl; [done|]. by rewrite IH. Qed.

(** What [np.std] computes is the population standard deviation. *)
Lemma np_std_population (data : list float) : np_std data = population_std data.
Proof.
  unfold np_std, population_std, population_variance, population_mean.
  cbv zeta. by rewrite squared_distances_map, !np_sum_total.
Qed.

Lemma time_diffs_from_length (t0 : Z) (rest : list Z) :
  length (time_diffs_from t0 rest) = length rest.
Proof. revert t0. induction rest as [|x rest IH]; intros t0; simpl; [done|]. by rewrite IH. Qed.

Lemma inter_arrival_times_length (points : list Z) :
  length (inter_arrival_times points) = length points - 1.
Proof.
  unfold inter_arrival_times. rewrite calculate_time_diff_eq. simpl.
  rewrite <- (Permutation_length (list_sort_perm points)).
  destruct (list_sort points) as [|t0 rest]; simpl; [done|].
  rewrite time_diffs_from_length. lia.
Qed.

(** The gaps of a list in order are finite and not negative. *)
Lemma time_diffs_from_finite (t0 : Z) (rest : list Z) :
  StronglySorted Z.le (t0 :: rest) →
  Forall (fun x => finite_nonneg (Prim2SF x)) (time_diffs_from t0 rest).
Proof.
  revert t0. induction rest as [|t1 rest IH]; intros t0 Hs; simpl; [done|].
  apply StronglySorted_inv in Hs as [Hs Hle]. constructor; [|by apply IH].
  apply Forall_cons in Hle as [Hle _]. apply micros_finite. lia.
Qed.

Lemma inter_arrival_times_finite (points : list Z) :
  Forall (fun x => finite_nonneg (Prim2SF x)) (inter_arrival_times points).
Proof.
  unfold inter_arrival_times. rewrite calculate_time_diff_eq. cbn [fst].
  pose proof (list_sort_sorted points) as Hs.
  destruct (list_sort points) as [|t0 rest]; [done|]. simpl.
  by apply time_diffs_from_finite.
Qed.

(** The standard deviation of the gaps of a list is a float that is not
    NaN and not negative. *)
Lemma std_reducer_nonneg (points : list Z) :
  (Z.of_nat (length points) ≤ maxsize)%Z →
  nonneg (Prim2SF (std_reducer (inter_arrival_times points))).
Proof.
  intros Hsize. unfold std_reducer.
  destruct (decide (length (inter_arrival_times points) < 2)) as [|Hlen]; [done|].
  apply np_std_nonneg; [apply inter_arrival_times_finite|].
  rewrite inter_arrival_times_length in *. unfold maxsize in Hsize.
  apply float_of_nat_pos; lia.
Qed.

(** C4: a list of at most one time point has no inter-arrival times, and
    every extractor built on the std, mean, max and sum reducers then
    returns 0.0.  For every list of time points (of a length that a Python
    list can have) the three standard-deviation extractors return one and
    the same float: 0.0 when there are fewer than two inter-arrival times,
    and otherwise their population standard deviation, the square root of
    the mean of their squared distances to their mean, both means dividing
    by their number N.  In either case it is not NaN and not negative.  The
    extractors are total: they return a float for every list, never an
    exception. *)
Theorem C4_short_sequences_and_std (short points : list Z) :
  length short ≤ 1 →
  (Z.of_nat (length points) ≤ maxsize)%Z →
  inter_arrival_times short = []
  ∧ (std_reducer [] = 0 ∧ mean_reducer [] = 0 ∧ max_reducer [] = 0 ∧ sum_reducer [] = 0)%float
  ∧ ((extract_fwd_iat_std short).1 = 0 ∧ (extract_bwd_iat_std short).1 = 0
     ∧ (extract_flow_iat_std short).1 = 0 ∧ (extract_fwd_iat_mean short).1 = 0
     ∧ (extract_flow_iat_mean short).1 = 0 ∧ (extract_fwd_iat_max short).1 = 0
     ∧ (extract_bwd_iat_max short).1 = 0 ∧ (extract_flow_iat_max short).1 = 0
     ∧ (extract_fwd_iat_total short).1 = 0)%float
  ∧ (let iats := inter_arrival_times points in
     let std := (extract_flow_iat_std points).1 in
     (extract_fwd_iat_std points).1 = std
     ∧ (extract_bwd_iat_std points).1 = std
     ∧ (length iats < 2 → std = 0%float)
     ∧ (2 ≤ length iats → std = population_std iats)
     ∧ PrimFloat.is_nan std = false
     ∧ (std <? 0)%float = false).
Proof.
  intros Hshort Hsize.
  pose proof (inter_arrival_times_short short Hshort) as Hnil.
  pose proof (std_reducer_nonneg points Hsize) as Hstd.
  cbv zeta. split_and!; try done.
  all: rewrite ?extract_fwd_iat_std_eq, ?extract_bwd_iat_std_eq, ?extract_flow_iat_std_eq,
    ?extract_fwd_iat_mean_eq, ?extract_flow_iat_mean_eq, ?extract_fwd_iat_max_eq,
    ?extract_bwd_iat_max_eq, ?extract_flow_iat_max_eq, ?extract_fwd_iat_total_eq;
    cbn [fst]; rewrite ?Hnil; try done.
  - intros Hlt. unfold std_reducer. by rewrite decide_True.
  - intros Hge. unfold std_reducer. rewrite decide_False by lia.
    apply np_std_population.
  - by apply nonneg_is_nan.
  - by apply nonneg_not_below_zero.
Qed.

Lemma C4_short_sequences_and_std_witness :
  inter_arrival_times [7%Z] = []
  ∧ (std_reducer [] = 0 ∧ mean_reducer [] = 0 ∧ max_reducer [] = 0 ∧ sum_reducer [] = 0)%float
  ∧ ((extract_fwd_iat_std [7%Z]).1 = 0 ∧ (extract_bwd_iat_std [7%Z]).1 = 0
     ∧ (extract_flow_iat_std [7%Z]).1 = 0 ∧ (extract_fwd_iat_mean [7%Z]).1 = 0
     ∧ (extract_flow_iat_mean [7%Z]).1 = 0 ∧ (extract_fwd_iat_max [7%Z]).1 = 0
     ∧ (extract_bwd_iat_max [7%Z]).1 = 0 ∧ (extract_flow_iat_max [7%Z]).1 = 0
     ∧ (extract_fwd_iat_total [7%Z]).1 = 0)%float
  ∧ (let iats := inter_arrival_times [7000; 0; 3000; 1000]%Z in
     let std := (extract_flow_iat_std [7000; 0; 3000; 1000]%Z).1 in
     (extract_fwd_iat_std [7000; 0; 3000; 1000]%Z).1 = std
     ∧ (extract_bwd_iat_std [7000; 0; 3000; 1000]%Z).1 = std
     ∧ (length iats < 2 → std = 0%float)
     ∧ (2 ≤ length iats → std = population_std iats)
     ∧ PrimFloat.is_nan std = false
     ∧ (std <? 0)%float = false).
Proof.
  apply (C4_short_sequences_and_std [7%Z] [7000; 0; 3000; 1000]%Z).
  - simpl. lia.
  - by vm_compute.
Defined.

(** The divisor is [N]: two gaps of 1000 and 2000 microseconds deviate by
    500 (with [N - 1] it would be about 707.1); two data points are enough. *)
Example population_std_two_gaps :
  (extract_flow_iat_std [0; 1000; 3000]%Z).1 = 500%float
  ∧ population_std [1000; 2000]%float = 500%float
  ∧ (length (inter_arrival_times [0; 1000; 3000]%Z) = 2).
Proof. split_and!; reflexivity. Qed.

(** ** Idle times *)

Lemma filter_sublist {A} (f : A → bool) (l : list A) : List.filter f l `sublist_of` l.
Proof.
  induction l as [|x l IH]; simpl; [constructor|].
  destruct (f x); by constructor.
Qed.

Lemma filter_Forall {A} (f : A → bool) (l : list A) :
  Forall (fun x => f x = true) (List.filter f l).
Proof.
  induction l as [|x l IH]; simpl; [constructor|].
  destruct (f x) eqn:Hx; [by constructor|done].
Qed.

Lemma idle_times_filter (points : list Z) (T : float) :
  idle_times points T =
    List.filter (fun diff => (T <? diff)%float) (inter_arrival_times points).
Proof. unfold idle_times. by rewrite idle_times_eq. Qed.

(** C5: whatever the time points and the threshold [T], the idle times are
    a subsequence of the inter-arrival times, namely those that are
    strictly greater than [T]; a gap equal to [T] is never idle.  The
    threshold behind [Idle Max] and [Idle Mean] is the literal 500000
    (microseconds): a gap of exactly 500000 is not idle, one of 500001 is. *)
Theorem C5_idle_times (points : list Z) (T : float) (packet_data : list packet) :
  idle_times points T `sublist_of` inter_arrival_times points
  ∧ Forall (fun x => (T <? x)%float = true) (idle_times points T)
  ∧ (∀ x, x ∈ idle_times points T ↔
          x ∈ inter_arrival_times points ∧ (T <? x)%float = true)
  ∧ (T ∉ idle_times points T)
  ∧ Config.IDLE_THRESHOLD = 500000%float
  ∧ feature packet_data "Idle Max" =
      (let? t := parse_packet_data packet_data in
       Ok (extract_idle_max (all_packet_times t) 500000%float).1)
  ∧ feature packet_data "Idle Mean" =
      (let? t := parse_packet_data packet_data in
       Ok (extract_idle_mean (all_packet_times t) 500000%float).1)
  ∧ idle_times [0; 500000]%Z 500000%float = []
  ∧ idle_times [0; 500001]%Z 500000%float = [500001%float].
Proof.
  rewrite idle_times_filter. split_and!.
  - apply filter_sublist.
  - apply filter_Forall.
  - intros x. rewrite !list_elem_of_In. apply filter_In.
  - intros [_ Hlt]%list_elem_of_In%filter_In. by rewrite ltb_irrefl in Hlt.
  - reflexivity.
  - unfold feature. rewrite extract_all_features_eq.
    destruct (parse_packet_data packet_data); [|done].
    cbn [rbind]. by rewrite extract_idle_max_eq.
  - unfold feature. rewrite extract_all_features_eq.
    destruct (parse_packet_data packet_data); [|done].
    cbn [rbind]. by rewrite extract_idle_mean_eq.
  - reflexivity.
  - reflexivity.
Qed.

(** ** The feature vector; flows whose packets all carry one timestamp *)





















(** Three packets of two endpoints at one instant, and one packet alone:
    every entry is 0.0. *)
Example identical_timestamps :
  feature_vector same_instant = Ok (replicate 12 0%float)
  ∧ feature_vector one_packet = Ok (replicate 12 0%float).
Proof. split; reflexivity. Qed.

(** ** Direction *)

Lemma forward_stamp_filter (ip port : json) (pd : list packet) :
  flat_map (forward_stamp ip port) pd = flat_map stamp (filter (sends_from ip port) pd).
Proof.
  induction pd as [|p pd IH]; [done|].
  rewrite filter_cons. cbn [flat_map]. unfold forward_stamp at 1, is_forward.
  fold (sends_from ip port p).
  destruct (decide (sends_from ip port p)) as [H|H].
  - rewrite bool_decide_eq_true_2 by done. cbn [flat_map]. by rewrite IH.
  - rewrite bool_decide_eq_false_2 by done. by rewrite IH.
Qed.

Lemma is_packet_backward (ip port : json) (p : packet) :
  is_packet p → is_backward ip port p = negb (is_forward ip port p).
Proof.
  intros (ip' & port' & t & _ & Hip & Hport). unfold is_backward, is_forward.
  rewrite Hip, Hport.
  destruct (decide (ip' = ip)) as [->|Hne].
  - destruct (decide (port' = port)) as [->|Hne].
    + by rewrite bool_decide_eq_false_2, bool_decide_eq_true_2 by (intuition congruence).
    + by rewrite bool_decide_eq_true_2, bool_decide_eq_false_2 by (intuition congruence).
  - by rewrite bool_decide_eq_false_2 by (intuition congruence).
Qed.

Lemma backward_stamp_filter (ip port : json) (pd : list packet) :
  Forall is_packet pd →
  flat_map (backward_stamp ip port) pd
  = flat_map stamp (filter (fun p => ¬ sends_from ip port p) pd).
Proof.
  induction 1 as [|p pd Hp _ IH]; [done|].
  rewrite filter_cons. cbn [flat_map]. unfold backward_stamp at 1.
  rewrite (is_packet_backward _ _ _ Hp). unfold is_forward.
  fold (sends_from ip port p).
  destruct (decide (¬ sends_from ip port p)) as [H|H].
  - rewrite bool_decide_eq_false_2 by done. cbn [negb flat_map]. by rewrite IH.
  - rewrite bool_decide_eq_true_2 by (by apply dec_stable). by rewrite IH.
Qed.

Lemma is_packet_fatal (pd : list packet) : Forall is_packet pd → existsb fatal pd = false.
Proof.
  induction 1 as [|p pd (ip & port & t & Hp) _ IH]; [done|].
  simpl. by rewrite (sent_at_fatal _ _ _ _ Hp), IH.
Qed.

Lemma sourced_backward (ip port : json) (p : packet) :
  sourced p → is_backward ip port p = negb (is_forward ip port p).
Proof.
  intros ([ip' Hip] & [port' Hport] & _). unfold is_backward, is_forward.
  rewrite Hip, Hport.
  destruct (decide (ip' = ip)) as [->|Hne].
  - destruct (decide (port' = port)) as [->|Hne].
    + by rewrite bool_decide_eq_false_2, bool_decide_eq_true_2 by (intuition congruence).
    + by rewrite bool_decide_eq_true_2, bool_decide_eq_false_2 by (intuition congruence).
  - by rewrite bool_decide_eq_false_2 by (intuition congruence).
Qed.

Lemma backward_stamp_sourced (ip port : json) (pd : list packet) :
  Forall sourced pd →
  flat_map (backward_stamp ip port) pd
  = flat_map stamp (filter (fun p => ¬ sends_from ip port p) pd).
Proof.
  induction 1 as [|p pd Hp _ IH]; [done|].
  rewrite filter_cons. cbn [flat_map]. unfold backward_stamp at 1.
  rewrite (sourced_backward _ _ _ Hp). unfold is_forward.
  fold (sends_from ip port p).
  destruct (decide (¬ sends_from ip port p)) as [H|H].
  - rewrite bool_decide_eq_false_2 by done. cbn [negb flat_map]. by rewrite IH.
  - rewrite bool_decide_eq_true_2 by (by apply dec_stable). by rewrite IH.
Qed.

Lemma sourced_fatal (pd : list packet) : Forall sourced pd → existsb fatal pd = false.
Proof.
  induction 1 as [|p pd (_ & _ & Hp) _ IH]; [done|]. simpl. by rewrite Hp, IH.
Qed.

Lemma stamp_dropped (p : packet) : fatal p = false → stamp p = [] ↔ dropped p = true.
Proof.
  unfold fatal, stamp, dropped. by destruct (p !! "timestamp") as [[]|].
Qed.

Lemma stamps_kept (pd : list packet) :
  Forall (fun p => fatal p = false) pd → Forall (fun p => dropped p = false) pd →
  length (flat_map stamp pd) = length pd.
Proof.
  induction pd as [|p pd IH]; [done|].
  intros [Hf Hfs]%Forall_cons [Hd Hds]%Forall_cons.
  cbn [flat_map]. rewrite length_app, IH by done.
  unfold stamp, fatal, dropped in *. by destruct (p !! "timestamp") as [[]|].
Qed.

(** C6 (as amended): on a non-empty list of packets that name their source
    and whose timestamps are strings, the classifier takes the source
    address and port of the first submitted packet as the initiator.  A
    packet whose timestamp does not parse is in none of the lists.  Of the
    other packets, the forward list holds the timestamps of exactly those
    that have the initiator's address and port, the backward list those of
    all the others, each in submission order, and the list of all holds
    every one.  The first packet has the initiator's address and port: it
    opens the forward list when its timestamp parses, and is in no list when
    it does not.  Which packets are forward is decided by [sends_from]
    alone, which does not read a timestamp. *)
Theorem C6_direction (p0 : packet) (rest : list packet) (ip port : json) :
  p0 !! "src_ip" = Some ip →
  p0 !! "src_port" = Some port →
  Forall sourced (p0 :: rest) →
  ∃ t : times,
    parse_packet_data (p0 :: rest) = Ok t
    ∧ forward_packet_times t
      = flat_map stamp (filter (sends_from ip port) (p0 :: rest))
    ∧ backward_packet_times t
      = flat_map stamp (filter (fun p => ¬ sends_from ip port p) (p0 :: rest))
    ∧ all_packet_times t = flat_map stamp (p0 :: rest)
    ∧ (∀ p, p ∈ p0 :: rest → stamp p = [] ↔ dropped p = true)
    ∧ sends_from ip port p0
    ∧ (∀ t0, p0 !! "timestamp" = Some (JIso t0) →
         forward_packet_times t
         = t0 :: flat_map stamp (filter (sends_from ip port) rest)
         ∧ all_packet_times t = t0 :: flat_map stamp rest)
    ∧ (dropped p0 = true →
         forward_packet_times t = flat_map stamp (filter (sends_from ip port) rest)
         ∧ all_packet_times t = flat_map stamp rest)
    ∧ (Forall (fun p => dropped p = false) (p0 :: rest) →
         length (all_packet_times t) = length (p0 :: rest)).
Proof.
  intros Hip Hport Hall.
  eexists. rewrite (parse_packet_data_spec _ _ ip port) by done.
  rewrite (sourced_fatal _ Hall).
  rewrite forward_stamp_filter, backward_stamp_sourced by done.
  assert (sends_from ip port p0) as Hs by done.
  cbn [forward_packet_times backward_packet_times all_packet_times].
  split_and!; try done.
  - intros p Hp. apply stamp_dropped.
    rewrite Forall_forall in Hall. by destruct (Hall p Hp) as (_ & _ & ?).
  - intros t0 Ht0. rewrite filter_cons, decide_True by done. cbn [flat_map].
    assert (stamp p0 = [t0]) as -> by (unfold stamp; by rewrite Ht0). done.
  - intros Hd. rewrite filter_cons, decide_True by done. cbn [flat_map].
    apply Forall_cons in Hall as [(_ & _ & Hf) _].
    by rewrite (proj2 (stamp_dropped p0 Hf) Hd).
  - intros Hnd. apply stamps_kept; [|done].
    eapply Forall_impl; [exact Hall|]. by intros p (_ & _ & ?).
Qed.

(** The two-way flow, submitted with its latest packet first. *)
Lemma C6_direction_witness :
  ∃ t : times,
    parse_packet_data two_way_shuffled = Ok t
    ∧ forward_packet_times t
      = flat_map stamp (filter (sends_from host_b (JNum 443)) two_way_shuffled)
    ∧ backward_packet_times t
      = flat_map stamp (filter (fun p => ¬ sends_from host_b (JNum 443) p) two_way_shuffled)
    ∧ all_packet_times t = flat_map stamp two_way_shuffled
    ∧ (∀ p, p ∈ two_way_shuffled → stamp p = [] ↔ dropped p = true)
    ∧ sends_from host_b (JNum 443) (pkt host_b (JNum 443) (JIso 5000))
    ∧ (∀ t0, pkt host_b (JNum 443) (JIso 5000) !! "timestamp" = Some (JIso t0) →
         forward_packet_times t
         = t0 :: flat_map stamp (filter (sends_from host_b (JNum 443))
                                   [pkt host_a (JNum 40000) (JIso 0);
                                    pkt host_a (JNum 40000) (JIso 1000)])
         ∧ all_packet_times t
           = t0 :: flat_map stamp [pkt host_a (JNum 40000) (JIso 0);
                                   pkt host_a (JNum 40000) (JIso 1000)])
    ∧ (dropped (pkt host_b (JNum 443) (JIso 5000)) = true →
         forward_packet_times t
         = flat_map stamp (filter (sends_from host_b (JNum 443))
                             [pkt host_a (JNum 40000) (JIso 0);
                              pkt host_a (JNum 40000) (JIso 1000)])
         ∧ all_packet_times t
           = flat_map stamp [pkt host_a (JNum 40000) (JIso 0);
                             pkt host_a (JNum 40000) (JIso 1000)])
    ∧ (Forall (fun p => dropped p = false) two_way_shuffled →
         length (all_packet_times t) = length two_way_shuffled).
Proof.
  apply (C6_direction (pkt host_b (JNum 443) (JIso 5000)) _ host_b (JNum 443));
    [reflexivity..|].
  repeat constructor; by eexists.
Defined.

(** C6 (as stated, refuted): a request that passes the validation, both of
    whose packets have the initiator's address and port; the timestamp of
    the first is not in ISO form.  The first submitted packet is not
    classified forward: it is in none of the three lists. *)
Lemma C6_first_packet_not_forward :
  validate unparsed_first = None
  ∧ initiator unparsed_first = Some (Some host_a, Some (JNum 40000))
  ∧ Forall (sends_from host_a (JNum 40000)) unparsed_first
  ∧ length unparsed_first = 2
  ∧ parse_packet_data unparsed_first = Ok (Times [1000] [] [1000])%Z.
Proof. split_and!; try reflexivity. by repeat constructor. Qed.

Example direction_ignores_time :
  parse_packet_data two_way_shuffled = Ok (Times [5000] [0; 1000] [5000; 0; 1000])%Z
  ∧ parse_packet_data two_way = Ok (Times [0; 1000] [5000] [0; 1000; 5000])%Z.
Proof. split; reflexivity. Qed.

(** ** Malformed packets *)

(** A packet without a timestamp, or whose timestamp is a string that does
    not parse, is skipped: it reaches none of the three lists. *)
Lemma unparsed_packet_skipped (ip port : json) (p : packet) (st : times) :
  p !! "timestamp" = None ∨ (∃ s, p !! "timestamp" = Some (JStr s)) →
  ∃ oe, try_packet ip port p st = (st, oe) ∧ escapes oe = false.
Proof.
  intros H. unfold try_packet, getitem.
  destruct H as [->|[s ->]]; eexists; (split; [reflexivity|done]).
Qed.

(** C7 (the code at the failing inputs): a packet with a parsable timestamp
    but no [src_ip], or with the initiator's [src_ip] but no [src_port], is
    not skipped entirely: its timestamp stays in the list of all packets
    although it is in neither direction list.  A packet of another address
    without [src_port] is not skipped at all: it is classified backward.
    A first packet without [src_ip], and a packet whose timestamp is not a
    string, make the whole call raise. *)
Lemma C7_malformed_packet_partly_kept :
  parse_packet_data [pkt host_a (JNum 40000) (JIso 0); no_src_ip]
    = Ok (Times [0] [] [0; 1000])%Z
  ∧ parse_packet_data [pkt host_a (JNum 40000) (JIso 0); no_src_port]
    = Ok (Times [0] [] [0; 2000])%Z
  ∧ parse_packet_data [pkt host_a (JNum 40000) (JIso 0); other_no_src_port]
    = Ok (Times [0] [3000] [0; 3000])%Z
  ∧ parse_packet_data [no_src_ip; pkt host_a (JNum 40000) (JIso 0)]
    = Raise (KeyError "src_ip")
  ∧ parse_packet_data [pkt host_a (JNum 40000) (JIso 0); pkt host_a (JNum 40000) (JNum 17)]
    = Raise (TypeError "fromisoformat: argument must be str")
  ∧ extract_all_features [pkt host_a (JNum 40000) (JIso 0); no_src_ip]
    = Ok [ ("Fwd IAT Std", 0%float); ("Bwd IAT Std", 0%float); ("Flow IAT Std", 0%float);
           ("Fwd IAT Max", 0%float); ("Flow IAT Mean", 1000%float);
           ("Flow IAT Max", 1000%float); ("Fwd IAT Mean", 0%float);
           ("Fwd IAT Total", 0%float); ("Flow Duration", 1000%float);
           ("Bwd IAT Max", 0%float); ("Idle Max", 0%float); ("Idle Mean", 0%float) ].
Proof. split_and!; reflexivity. Qed.

(** ** The route *)

Lemma validate_first_missing (before after : list packet) (p : packet) :
  Forall (fun q => missing_fields q = []) before →
  missing_fields p ≠ [] →
  validate (before ++ p :: after) =
    Some (ErrorBody ("Missing required fields in packet: "
                     +:+ String.concat ", " (missing_fields p)), 400%Z).
Proof.
  intros Hbefore Hp. induction Hbefore as [|q before Hq _ IH]; simpl.
  - by destruct (missing_fields p).
  - by rewrite Hq.
Qed.

Lemma validate_valid (pd : list packet) :
  Forall (fun q => missing_fields q = []) pd → validate pd = None.
Proof. induction 1 as [|q pd Hq _ IH]; simpl; [done|]. by rewrite Hq. Qed.

Lemma elem_of_missing_fields (p : packet) (field : string) :
  field ∈ missing_fields p ↔ field ∈ required_fields ∧ p !! field = None.
Proof.
  unfold missing_fields. rewrite !list_elem_of_In, filter_In.
  by rewrite bool_decide_eq_true.
Qed.

(** C8 (as amended): with the model loaded, an empty request is answered
    with 'Empty packet data' and status 400, and a request with a packet
    that lacks a required key is answered with status 400 and the message
    'Missing required fields in packet: ' followed by the missing keys of
    the first such packet, in the order of the required fields; both
    answers are given whatever the feature extractor would do with the
    request, and the message does not say which packet it is about.  With
    no model loaded every request is answered with status 503. *)
Theorem C8_validation (model : list float → list float) (before after : list packet)
    (p : packet) (packet_data : list packet) :
  Forall (fun q => missing_fields q = []) before →
  missing_fields p ≠ [] →
  predict (Some model) [] = (ErrorBody "Empty packet data", 400%Z)
  ∧ predict (Some model) (before ++ p :: after) =
      (ErrorBody ("Missing required fields in packet: "
                  +:+ String.concat ", " (missing_fields p)), 400%Z)
  ∧ (∀ field, field ∈ missing_fields p ↔ field ∈ required_fields ∧ p !! field = None)
  ∧ missing_fields p `sublist_of` ["timestamp"; "src_ip"; "dst_ip"; "src_port"; "dst_port"]
  ∧ predict None packet_data = (ErrorBody "Model not loaded. Check server logs.", 503%Z).
Proof.
  intros Hbefore Hp. split_and!.
  - done.
  - unfold predict. rewrite (validate_first_missing _ _ _ Hbefore Hp).
    by destruct before.
  - apply elem_of_missing_fields.
  - apply filter_sublist.
  - done.
Qed.

Lemma C8_validation_witness :
  predict (Some sample_model) [] = (ErrorBody "Empty packet data", 400%Z)
  ∧ predict (Some sample_model) ([good_packet] ++ bad_packet :: [good_packet]) =
      (ErrorBody ("Missing required fields in packet: "
                  +:+ String.concat ", " (missing_fields bad_packet)), 400%Z)
  ∧ (∀ field, field ∈ missing_fields bad_packet ↔
              field ∈ required_fields ∧ bad_packet !! field = None)
  ∧ missing_fields bad_packet
      `sublist_of` ["timestamp"; "src_ip"; "dst_ip"; "src_port"; "dst_port"]
  ∧ predict None [good_packet] = (ErrorBody "Model not loaded. Check server logs.", 503%Z).
Proof.
  apply (C8_validation sample_model [good_packet] [good_packet] bad_packet [good_packet]).
  - by repeat constructor.
  - vm_compute. discriminate.
Defined.

(** C8 (as stated, refuted): an empty request is not answered with 'Empty
    packet data' when no model is loaded, and two requests whose offending
    packet is at different places get one and the same answer, which
    therefore does not say which packet lacks the key. *)
Lemma C8_answer_does_not_name_the_packet :
  predict None [] = (ErrorBody "Model not loaded. Check server logs.", 503%Z)
  ∧ predict (Some sample_model) [good_packet; bad_packet]
    = (ErrorBody "Missing required fields in packet: dst_port", 400%Z)
  ∧ predict (Some sample_model) [bad_packet; good_packet]
    = (ErrorBody "Missing required fields in packet: dst_port", 400%Z).
Proof. split_and!; reflexivity. Qed.

(** ** The verdict *)

Lemma valid_packet_validated (pd : list packet) :
  Forall valid_packet pd → Forall (fun q => missing_fields q = []) pd.
Proof. intros Hv. eapply Forall_impl; [done|]. by intros p [? _]. Qed.

(** C9: every request that is scored (a loaded model, a non-empty list of
    packets that pass the validation, an extraction that returns the feature
    vector, a classifier that returns the two class probabilities) is
    answered with status 200 and the verdict
    [is_attack = (p_attack > threshold)], [prediction = int(is_attack)],
    for the threshold of the configuration, which is 0.05.  The comparison
    is strict: a probability equal to the threshold is not an attack.  A
    probability of 0.06 gives [is_attack = true] and [prediction = 1]. *)
Theorem C9_verdict (model : list float → list float) (packet_data : list packet)
    (vector : list float) (p_attack threshold : float) :
  packet_data ≠ [] →
  Forall (fun p => missing_fields p = []) packet_data →
  feature_vector packet_data = Ok vector →
  model vector !! 1 = Some p_attack →
  (let is_attack := (Config.PREDICTION_THRESHOLD <? p_attack)%float in
   predict (Some model) packet_data
   = (VerdictBody (if is_attack then 1 else 0)%Z is_attack, 200%Z))
  ∧ Config.PREDICTION_THRESHOLD = 0.05%float
  ∧ is_attack_of threshold threshold = false
  ∧ is_attack_of Config.PREDICTION_THRESHOLD 0.06 = true
  ∧ int_of_bool (is_attack_of Config.PREDICTION_THRESHOLD 0.06) = 1%Z.
Proof.
  intros Hne Hv Hvec Hp. split_and!; try done.
  - cbv zeta. unfold predict. rewrite (validate_valid _ Hv).
    destruct packet_data as [|p0 rest]; [done|].
    unfold score. unfold feature_vector in Hvec.
    destruct (extract_all_features (p0 :: rest)) as [features|]; [|done].
    cbv beta iota delta [rbind] in Hvec |- *. rewrite Hvec, Hp.
    unfold is_attack_of, int_of_bool. by destruct (_ <? _)%float.
  - apply ltb_irrefl.
Qed.

Lemma C9_verdict_witness :
  (let is_attack := (Config.PREDICTION_THRESHOLD <? 0.06)%float in
   predict (Some sample_model) two_way
   = (VerdictBody (if is_attack then 1 else 0)%Z is_attack, 200%Z))
  ∧ Config.PREDICTION_THRESHOLD = 0.05%float
  ∧ is_attack_of 0.05 0.05 = false
  ∧ is_attack_of Config.PREDICTION_THRESHOLD 0.06 = true
  ∧ int_of_bool (is_attack_of Config.PREDICTION_THRESHOLD 0.06) = 1%Z.
Proof.
  apply (C9_verdict sample_model two_way
           [0; 0; 1500; 1000; 2500; 4000; 1000; 1000; 5000; 0; 0; 0]%float
           0.06%float 0.05%float).
  - discriminate.
  - repeat constructor.
  - reflexivity.
  - reflexivity.
Defined.

Example verdict_at_006 :
  predict (Some sample_model) [good_packet] = (VerdictBody 1 true, 200%Z)
  ∧ predict (Some (fun _ => [0.95; 0.05]%float)) [good_packet] = (VerdictBody 0 false, 200%Z).
Proof. split; reflexivity. Qed.

(** ** What a call leaves in the list it was given *)

Lemma time_diffs_lookup (sorted : list Z) (i : nat) (a b : Z) :
  sorted !! i = Some a → sorted !! S i = Some b →
  time_diffs sorted !! i = Some (total_seconds (b - a) * 1000000)%float.
Proof.
  destruct sorted as [|t0 rest]; [done|]. simpl.
  revert t0 i. induction rest as [|t1 rest IH]; intros t0 i; [done|].
  destruct i as [|i]; simpl.
  - by intros [= ->] [= ->].
  - intros Ha Hb. by apply IH.
Qed.

Lemma list_sort_fixed (points : list Z) :
  list_sort points = points ↔ StronglySorted Z.le points.
Proof.
  split.
  - intros <-. apply list_sort_sorted.
  - apply list_sort_id.
Qed.

(** C10 (as amended): [calculate_time_diff] returns the consecutive
    differences of the time points taken in ascending order, and it leaves
    the list it was given sorted in ascending order: the same elements, in
    their original order only if that order was ascending already. *)
Theorem C10_sorts_in_place (points : list Z) :
  let result := (calculate_time_diff points).1 in
  let after := (calculate_time_diff points).2 in
  after = list_sort points
  ∧ after ≡ₚ points
  ∧ StronglySorted Z.le after
  ∧ (after = points ↔ StronglySorted Z.le points)
  ∧ length result = length points - 1
  ∧ (∀ i a b, after !! i = Some a → after !! S i = Some b →
       result !! i = Some (total_seconds (b - a) * 1000000)%float).
Proof.
  cbv zeta. rewrite calculate_time_diff_eq. cbn [fst snd]. split_and!.
  - done.
  - apply list_sort_perm.
  - apply list_sort_sorted.
  - apply list_sort_fixed.
  - rewrite <- (inter_arrival_times_length points).
    unfold inter_arrival_times. by rewrite calculate_time_diff_eq.
  - intros i a b. apply time_diffs_lookup.
Qed.

(** C10 (as stated, refuted): the call changes the order of a list that is
    not sorted. *)
Lemma C10_input_list_reordered :
  (calculate_time_diff [3; 1; 2]%Z).2 = [1; 2; 3]%Z
  ∧ (calculate_time_diff [3; 1; 2]%Z).2 ≠ [3; 1; 2]%Z
  ∧ (calculate_time_diff [3; 1; 2]%Z).1 = [1; 1]%float.
Proof. split_and!; [reflexivity|discriminate|reflexivity]. Qed.

(** * Further properties of the code *)

(** ** When the classifier raises *)

(** X1: [parse_packet_data] raises in three cases only: the first packet
    has no [src_ip] (KeyError 'src_ip'), it has one but no [src_port]
    (KeyError 'src_port'), or the timestamp of some packet is not a string
    (TypeError).  An absent key or an unparsable string in a later packet
    never makes it raise. *)
Theorem X1_parse_packet_data_raises (packet_data : list packet) :
  match packet_data with
  | [] => parse_packet_data packet_data = Ok (Times [] [] [])
  | p0 :: _ =>
      match p0 !! "src_ip", p0 !! "src_port" with
      | None, _ => parse_packet_data packet_data = Raise (KeyError "src_ip")
      | Some _, None => parse_packet_data packet_data = Raise (KeyError "src_port")
      | Some _, Some _ =>
          if existsb fatal packet_data
          then parse_packet_data packet_data
               = Raise (TypeError "fromisoformat: argument must be str")
          else ∃ t, parse_packet_data packet_data = Ok t
      end
  end.
Proof.
  destruct packet_data as [|p0 rest]; [done|].
  destruct (p0 !! "src_ip") as [ip|] eqn:Hip.
  - destruct (p0 !! "src_port") as [port|] eqn:Hport.
    + rewrite (parse_packet_data_spec _ _ ip port) by done.
      destruct (existsb fatal (p0 :: rest)); [done|by eexists].
    + unfold parse_packet_data, getitem. by rewrite Hip, Hport.
  - unfold parse_packet_data, getitem. by rewrite Hip.
Qed.

(** ** The three lists *)

Lemma forward_backward_exclusive (ip port : json) (p : packet) :
  is_forward ip port p = true → is_backward ip port p = false.
Proof.
  intros [Hip Hport]%bool_decide_eq_true. unfold is_backward.
  by rewrite Hip, Hport, decide_True, bool_decide_eq_false_2 by (intuition congruence).
Qed.

Lemma stamps_sublist (f : packet → bool) (pd : list packet) :
  flat_map (fun p => if f p then stamp p else []) pd `sublist_of` flat_map stamp pd.
Proof.
  induction pd as [|p pd IH]; simpl; [done|].
  apply sublist_app; [|done]. destruct (f p); [done|apply sublist_nil_l].
Qed.

Lemma stamps_length (ip port : json) (pd : list packet) :
  length (flat_map (forward_stamp ip port) pd)
  + length (flat_map (backward_stamp ip port) pd)
  ≤ length (flat_map stamp pd)
  ∧ length (flat_map stamp pd) ≤ length pd.
Proof.
  induction pd as [|p pd [IH1 IH2]]; simpl; [lia|].
  rewrite !length_app. pose proof (stamp_length p) as Hs.
  assert (length (forward_stamp ip port p) + length (backward_stamp ip port p)
          ≤ length (stamp p)); [|lia].
  unfold forward_stamp, backward_stamp.
  destruct (is_forward ip port p) eqn:Hf.
  - rewrite (forward_backward_exclusive _ _ _ Hf). simpl. lia.
  - destruct (is_backward ip port p); simpl; lia.
Qed.

Lemma parse_packet_data_Ok (packet_data : list packet) (t : times) :
  parse_packet_data packet_data = Ok t →
  packet_data = [] ∧ t = Times [] [] []
  ∨ ∃ ip port,
      initiator packet_data = Some (Some ip, Some port)
      ∧ existsb fatal packet_data = false
      ∧ t = Times (flat_map (forward_stamp ip port) packet_data)
                  (flat_map (backward_stamp ip port) packet_data)
                  (flat_map stamp packet_data).
Proof.
  destruct packet_data as [|p0 rest]; [intros [= <-]; by left|].
  intros H. right. revert H. unfold parse_packet_data, getitem, initiator.
  cbn [head fmap option_fmap option_map].
  destruct (p0 !! "src_ip") as [ip|]; [|done].
  destruct (p0 !! "src_port") as [port|]; [|done].
  cbv beta iota delta [rbind]. rewrite parse_loop_spec.
  destruct (existsb fatal (p0 :: rest)); [done|].
  intros [= <-]. by exists ip, port.
Qed.

(** X2: in a result of [parse_packet_data] the forward and the backward
    list are subsequences of the list of all timestamps, no packet is
    counted in both directions, and no list is longer than the request:
    [len(forward) + len(backward) <= len(all) <= len(packet_data)]. *)
Theorem X2_lists_within_all (packet_data : list packet) (t : times) :
  parse_packet_data packet_data = Ok t →
  forward_packet_times t `sublist_of` all_packet_times t
  ∧ backward_packet_times t `sublist_of` all_packet_times t
  ∧ length (forward_packet_times t) + length (backward_packet_times t)
    ≤ length (all_packet_times t)
  ∧ length (all_packet_times t) ≤ length packet_data.
Proof.
  intros [[-> ->]|(ip & port & _ & _ & ->)]%parse_packet_data_Ok.
  - simpl. split_and!; done || lia.
  - cbn [forward_packet_times backward_packet_times all_packet_times].
    pose proof (stamps_length ip port packet_data) as [? ?].
    split_and!; [apply stamps_sublist..|done|done].
Qed.

Lemma X2_lists_within_all_witness :
  forward_packet_times (Times [0] [3000] [0; 1000; 3000])%Z
    `sublist_of` all_packet_times (Times [0] [3000] [0; 1000; 3000])%Z
  ∧ backward_packet_times (Times [0] [3000] [0; 1000; 3000])%Z
    `sublist_of` all_packet_times (Times [0] [3000] [0; 1000; 3000])%Z
  ∧ length (forward_packet_times (Times [0] [3000] [0; 1000; 3000])%Z)
    + length (backward_packet_times (Times [0] [3000] [0; 1000; 3000])%Z)
    ≤ length (all_packet_times (Times [0] [3000] [0; 1000; 3000])%Z)
  ∧ length (all_packet_times (Times [0] [3000] [0; 1000; 3000])%Z)
    ≤ length [pkt host_a (JNum 40000) (JIso 0); no_src_ip; other_no_src_port;
              {[ "src_ip" := host_a ]}].
Proof.
  apply (X2_lists_within_all
           [pkt host_a (JNum 40000) (JIso 0); no_src_ip; other_no_src_port;
            {[ "src_ip" := host_a ]}]).
  reflexivity.
Defined.

Lemma is_packet_one_direction (ip port : json) (p : packet) :
  is_packet p → forward_stamp ip port p ++ backward_stamp ip port p = stamp p.
Proof.
  intros Hp. unfold forward_stamp, backward_stamp.
  rewrite (is_packet_backward _ _ _ Hp).
  destruct (is_forward ip port p); simpl; by rewrite ?app_nil_r.
Qed.

(** X3: for packets that each carry a source address, a source port and a
    parsable timestamp, every packet is in exactly one direction: the
    forward and the backward list together are a rearrangement of the list
    of all timestamps, which has one entry per packet. *)
Theorem X3_directions_partition (packet_data : list packet) :
  Forall is_packet packet_data →
  ∃ t, parse_packet_data packet_data = Ok t
    ∧ forward_packet_times t ++ backward_packet_times t ≡ₚ all_packet_times t
    ∧ length (forward_packet_times t) + length (backward_packet_times t)
      = length packet_data.
Proof.
  intros Hall. destruct packet_data as [|p0 rest]; [by eexists|].
  pose proof Hall as [(ip & port & t0 & _ & Hip & Hport) _]%Forall_cons.
  eexists. rewrite (parse_packet_data_spec _ _ ip port), (is_packet_fatal _ Hall) by done.
  split; [done|]. cbn [forward_packet_times backward_packet_times all_packet_times].
  assert (flat_map (forward_stamp ip port) (p0 :: rest)
          ++ flat_map (backward_stamp ip port) (p0 :: rest)
          ≡ₚ flat_map stamp (p0 :: rest)) as Hperm.
  { clear -Hall. induction Hall as [|p pd Hp _ IH]; [done|]. cbn [flat_map].
    rewrite <- (is_packet_one_direction ip port p Hp), <- IH.
    rewrite <- !app_assoc. f_equiv. rewrite !app_assoc. f_equiv.
    apply Permutation_app_comm. }
  split; [done|]. rewrite <- length_app, Hperm.
  clear -Hall. induction Hall as [|p pd (ip & port & t & Hp) _ IH]; [done|].
  cbn [flat_map]. rewrite length_app, (sent_at_stamp _ _ _ _ Hp). simpl. by rewrite IH.
Qed.

Lemma X3_directions_partition_witness :
  ∃ t, parse_packet_data two_way_shuffled = Ok t
    ∧ forward_packet_times t ++ backward_packet_times t ≡ₚ all_packet_times t
    ∧ length (forward_packet_times t) + length (backward_packet_times t)
      = length two_way_shuffled.
Proof.
  apply (X3_directions_partition two_way_shuffled).
  repeat constructor.
  - by exists host_b, (JNum 443), 5000%Z.
  - by exists host_a, (JNum 40000), 0%Z.
  - by exists host_a, (JNum 40000), 1000%Z.
Defined.

(** ** What the extractor reads *)

Lemma try_packet_same_keys (ip port : json) (p q : packet) (st : times) :
  same_flow_keys p q → try_packet ip port p st = try_packet ip port q st.
Proof.
  intros (Ht & Hip & Hport). unfold try_packet, getitem. by rewrite Ht, Hip, Hport.
Qed.

Lemma parse_loop_same_keys (ip port : json) (pd pd' : list packet) (st : times) :
  Forall2 same_flow_keys pd pd' → parse_loop ip port pd st = parse_loop ip port pd' st.
Proof.
  intros H. revert st. induction H as [|p q pd pd' Hpq _ IH]; intros st; [done|].
  simpl. rewrite (try_packet_same_keys _ _ _ _ _ Hpq).
  destruct (try_packet ip port q st) as [st' [[]|]]; by rewrite ?IH.
Qed.

Lemma parse_packet_data_same_keys (pd pd' : list packet) :
  Forall2 same_flow_keys pd pd' → parse_packet_data pd = parse_packet_data pd'.
Proof.
  intros H. destruct H as [|p q pd pd' Hpq Hrest]; [done|].
  assert (Forall2 same_flow_keys (p :: pd) (q :: pd')) as Hall by (by constructor).
  unfold parse_packet_data, getitem.
  destruct Hpq as (_ & -> & ->).
  destruct (q !! "src_ip"); [|done]. destruct (q !! "src_port"); [|done].
  cbv beta iota delta [rbind]. by apply parse_loop_same_keys.
Qed.

Lemma extract_all_features_same_keys (pd pd' : list packet) :
  Forall2 same_flow_keys pd pd' → extract_all_features pd = extract_all_features pd'.
Proof.
  intros H. by rewrite !extract_all_features_eq, (parse_packet_data_same_keys _ _ H).
Qed.

(** X4: the extractor reads nothing of a packet but [timestamp], [src_ip]
    and [src_port]: two requests whose packets agree, one by one, on these
    three keys give the same three lists and the same feature dictionary
    (or raise the same exception), whatever else the packets contain. *)
Theorem X4_only_three_keys_read (packet_data packet_data' : list packet) :
  Forall2 same_flow_keys packet_data packet_data' →
  parse_packet_data packet_data = parse_packet_data packet_data'
  ∧ extract_all_features packet_data = extract_all_features packet_data'.
Proof.
  intros H. split.
  - by apply parse_packet_data_same_keys.
  - by apply extract_all_features_same_keys.
Qed.

Lemma X4_only_three_keys_read_witness :
  parse_packet_data [good_packet]
  = parse_packet_data [<["ttl" := JNum 64]> (delete "dst_ip" good_packet)]
  ∧ extract_all_features [good_packet]
    = extract_all_features [<["ttl" := JNum 64]> (delete "dst_ip" good_packet)].
Proof.
  apply (X4_only_three_keys_read
           [good_packet] [<["ttl" := JNum 64]> (delete "dst_ip" good_packet)]).
  repeat constructor.
Defined.

(** ** Dropped packets *)

Lemma dropped_not_fatal (p : packet) : dropped p = true → fatal p = false.
Proof. unfold dropped, fatal. by destruct (p !! "timestamp") as [[]|]. Qed.

Lemma dropped_stamp (p : packet) : dropped p = true → stamp p = [].
Proof. unfold dropped, stamp. by destruct (p !! "timestamp") as [[]|]. Qed.

Lemma existsb_fatal_kept (pd : list packet) :
  existsb fatal (List.filter (fun q => negb (dropped q)) pd) = existsb fatal pd.
Proof.
  induction pd as [|p pd IH]; [done|]. simpl.
  destruct (dropped p) eqn:Hd; simpl; rewrite IH; [|done].
  by rewrite (dropped_not_fatal _ Hd).
Qed.

Lemma flat_map_kept (f : packet → list Z) (pd : list packet) :
  (∀ p, dropped p = true → f p = []) →
  flat_map f (List.filter (fun q => negb (dropped q)) pd) = flat_map f pd.
Proof.
  intros Hf. induction pd as [|p pd IH]; [done|]. simpl.
  destruct (dropped p) eqn:Hd; simpl; rewrite IH; [|done].
  by rewrite (Hf _ Hd).
Qed.

(** X5: a packet after the first whose timestamp is absent or is a string
    that does not parse has no effect at all: removing all such packets
    from the request leaves the three lists and the feature dictionary (or
    the exception raised) as they are.  (The first packet still names the
    initiator.) *)
Theorem X5_dropped_packets_have_no_effect (p0 : packet) (rest : list packet) :
  let kept := List.filter (fun q => negb (dropped q)) rest in
  parse_packet_data (p0 :: rest) = parse_packet_data (p0 :: kept)
  ∧ extract_all_features (p0 :: rest) = extract_all_features (p0 :: kept).
Proof.
  cbv zeta.
  assert (parse_packet_data (p0 :: rest)
          = parse_packet_data (p0 :: List.filter (fun q => negb (dropped q)) rest))
    as Hparse.
  { unfold parse_packet_data, getitem.
    destruct (p0 !! "src_ip") as [ip|]; [|done].
    destruct (p0 !! "src_port") as [port|]; [|done].
    cbv beta iota delta [rbind]. rewrite !parse_loop_spec.
    cbn [existsb flat_map]. rewrite existsb_fatal_kept.
    rewrite !flat_map_kept; [done|..].
    - apply dropped_stamp.
    - intros p Hp. unfold backward_stamp. rewrite (dropped_stamp _ Hp).
      by destruct (is_backward ip port p).
    - intros p Hp. unfold forward_stamp. rewrite (dropped_stamp _ Hp).
      by destruct (is_forward ip port p). }
  split; [done|]. by rewrite !extract_all_features_eq, Hparse.
Qed.

(** ** Reordering, again *)

Lemma feature_features_of (packet_data : list packet) (name : string) :
  feature packet_data name =
    let? t := parse_packet_data packet_data in column (features_of t) name.
Proof.
  unfold feature. rewrite extract_all_features_eq.
  by destruct (parse_packet_data packet_data).
Qed.

Lemma parse_packet_data_initiator (packet_data : list packet) :
  has_initiator packet_data →
  ∃ ip port,
    initiator packet_data = Some (Some ip, Some port)
    ∧ parse_packet_data packet_data =
        if existsb fatal packet_data then Raise not_str
        else Ok (Times (flat_map (forward_stamp ip port) packet_data)
                       (flat_map (backward_stamp ip port) packet_data)
                       (flat_map stamp packet_data)).
Proof.
  intros (p0 & ip & port & Hhead & Hip & Hport).
  destruct packet_data as [|p rest]; [done|]. injection Hhead as ->.
  exists ip, port. split.
  - unfold initiator. simpl. by rewrite Hip, Hport.
  - by apply parse_packet_data_spec.
Qed.

(** X6: the six entries computed from the list of all packets (Flow IAT
    Std, Flow IAT Mean, Flow IAT Max, Flow Duration, Idle Max, Idle Mean)
    are the same for every ordering of a request, also for one that
    changes the initiator, as long as the first packet of each ordering
    names a source address and port. *)
Theorem X6_flow_level_entries_ignore_order
    (packet_data packet_data' : list packet) (name : string) :
  packet_data ≡ₚ packet_data' →
  has_initiator packet_data →
  has_initiator packet_data' →
  name ∈ flow_level →
  feature packet_data name = feature packet_data' name.
Proof.
  intros Hp (ip & port & _ & Hparse)%parse_packet_data_initiator
    (ip' & port' & _ & Hparse')%parse_packet_data_initiator Hname.
  rewrite !feature_features_of, Hparse, Hparse', <- (existsb_proper fatal _ _ Hp).
  destruct (existsb fatal packet_data); [done|].
  cbv beta iota delta [rbind]. unfold features_of.
  cbn [forward_packet_times backward_packet_times all_packet_times].
  pose proof (flat_map_proper stamp _ _ Hp) as Hall.
  rewrite <- (inter_arrival_times_proper _ _ Hall), <- (idle_times_proper _ _ _ Hall),
    <- (extract_flow_duration_proper _ _ Hall).
  unfold flow_level in Hname.
  repeat (apply elem_of_cons in Hname as [->|Hname]; [reflexivity|]).
  by apply elem_of_nil in Hname.
Qed.

Lemma X6_flow_level_entries_ignore_order_witness :
  feature two_way_shuffled "Flow IAT Std" = feature two_way "Flow IAT Std".
Proof.
  apply (X6_flow_level_entries_ignore_order two_way_shuffled two_way "Flow IAT Std").
  - apply Permutation_cons_append.
  - by exists (pkt host_b (JNum 443) (JIso 5000)), host_b, (JNum 443).
  - by exists (pkt host_a (JNum 40000) (JIso 0)), host_a, (JNum 40000).
  - unfold flow_level. by left.
Defined.

(** ** The maximum *)

Lemma SFltb_trans (x y z : spec_float) :
  SFltb x y = true → SFltb y z = true → SFltb x z = true.
Proof.
  unfold SFltb, SFcompare.
  destruct x as [[]|[]| |[] mx ex], y as [[]|[]| |[] my ey], z as [[]|[]| |[] mz ez];
    try done.
  all: change (Pos.compare_cont Eq) with Pos.compare.
  all: repeat match goal with
         | |- context [(?a ?= ?b)%Z] => destruct (Z.compare_spec a b)
         | |- context [(?a ?= ?b)%positive] => destruct (Pos.compare_spec a b)
         end; simpl; try done; try lia.
Qed.

Lemma ltb_trans (x y z : float) :
  (x <? y)%float = true → (y <? z)%float = true → (x <? z)%float = true.
Proof. rewrite !FloatAxioms.ltb_spec. apply SFltb_trans. Qed.

Lemma py_max_in (d : float) (ds : list float) : py_max d ds ∈ d :: ds.
Proof.
  unfold py_max. revert d. induction ds as [|x ds IH]; intros d; simpl; [by left|].
  destruct (d <? x)%float.
  - right. apply IH.
  - specialize (IH d). apply elem_of_cons in IH as [->|IH]; [by left|by do 2 right].
Qed.

Lemma py_max_upper (d : float) (ds : list float) :
  Forall (fun x => (py_max d ds <? x)%float = false) (d :: ds).
Proof.
  unfold py_max.
  assert (∀ seen m,
            Forall (fun x => (m <? x)%float = false) seen →
            Forall (fun x => (fold_left (fun m item => if (m <? item)%float then item else m)
                                ds m <? x)%float = false) (seen ++ ds)) as H.
  { induction ds as [|x ds IH]; intros seen m Hseen; simpl.
    - by rewrite app_nil_r.
    - rewrite (assoc_L (++) seen [x] ds : seen ++ x :: ds = (seen ++ [x]) ++ ds).
      apply IH. apply Forall_app. split.
      + destruct (m <? x)%float eqn:Hmx; [|done].
        eapply Forall_impl; [exact Hseen|]. intros y Hy. simpl in Hy.
        destruct (x <? y)%float eqn:Hxy; [|done].
        by rewrite (ltb_trans _ _ _ Hmx Hxy) in Hy.
      + constructor; [|done]. destruct (m <? x)%float eqn:Hmx; [apply ltb_irrefl|done]. }
  apply (H [d] d). constructor; [apply ltb_irrefl|done].
Qed.

(** X7: each Max entry is 0.0 when its sequence is empty and otherwise
    one of the inter-arrival times of its list, and none of those compares
    greater than it. *)
Theorem X7_max_is_attained (points : list Z) :
  let iats := inter_arrival_times points in
  (extract_fwd_iat_max points).1 = (extract_flow_iat_max points).1
  ∧ (extract_bwd_iat_max points).1 = (extract_flow_iat_max points).1
  ∧ (iats = [] ∧ (extract_flow_iat_max points).1 = 0%float
     ∨ (extract_flow_iat_max points).1 ∈ iats
       ∧ Forall (fun x => ((extract_flow_iat_max points).1 <? x)%float = false) iats).
Proof.
  cbv zeta. rewrite extract_fwd_iat_max_eq, extract_bwd_iat_max_eq, extract_flow_iat_max_eq.
  cbn [fst]. split_and!; [done..|].
  destruct (inter_arrival_times points) as [|d ds]; [by left|right].
  split; [apply py_max_in|apply py_max_upper].
Qed.

(** X8: Idle Max is 0.0 when no gap exceeds the threshold, and otherwise
    it is one of the inter-arrival times, strictly greater than the
    threshold, and no idle gap compares greater than it. *)
Theorem X8_idle_max (points : list Z) (threshold : float) :
  let idle_max := (extract_idle_max points threshold).1 in
  idle_times points threshold = [] ∧ idle_max = 0%float
  ∨ idle_max ∈ inter_arrival_times points
    ∧ (threshold <? idle_max)%float = true
    ∧ Forall (fun x => (idle_max <? x)%float = false) (idle_times points threshold).
Proof.
  cbv zeta. rewrite extract_idle_max_eq. cbn [fst].
  destruct (idle_times points threshold) as [|d ds] eqn:Hidle; [by left|right].
  pose proof (py_max_in d ds) as Hin. rewrite <- Hidle in Hin.
  rewrite idle_times_filter in Hin. apply list_elem_of_In, filter_In in Hin as [Hin Hlt].
  split_and!; [by apply list_elem_of_In|done|apply py_max_upper].
Qed.

(** ** Exchanging the two endpoints *)

Lemma two_endpoints_swap (ip1 port1 ip2 port2 : json) (p : packet) :
  (ip1, port1) ≠ (ip2, port2) →
  (∃ t, sent_at ip1 port1 t p ∨ sent_at ip2 port2 t p) →
  forward_stamp ip1 port1 p = backward_stamp ip2 port2 p
  ∧ backward_stamp ip1 port1 p = forward_stamp ip2 port2 p.
Proof.
  intros Hne [t [H|H]].
  all: destruct (sent_at_forward _ _ _ _ H) as [-> ->].
  all: pose proof (sent_at_stamp _ _ _ _ H) as Hs; destruct H as (_ & Hip & Hport).
  all: unfold forward_stamp, backward_stamp, is_forward, is_backward.
  all: rewrite Hip, Hport, Hs.
  all: repeat case_decide; repeat split_bool_decide; subst; try done.
  all: exfalso; intuition congruence.
Qed.

Lemma flat_map_ext_Forall {A B} (f g : A → list B) (l : list A) :
  Forall (fun x => f x = g x) l → flat_map f l = flat_map g l.
Proof. induction 1 as [|x l Hx _ IH]; [done|]. simpl. by rewrite Hx, IH. Qed.

(** X9: in a flow between two endpoints, submitting the packets in an
    order that begins with a packet of the other endpoint exchanges the
    roles: the forward list of one ordering is a rearrangement of the
    backward list of the other, so Fwd IAT Std and Fwd IAT Max of one are
    Bwd IAT Std and Bwd IAT Max of the other. *)
Theorem X9_endpoints_exchanged (ip1 port1 ip2 port2 : json)
    (packet_data packet_data' : list packet) :
  (ip1, port1) ≠ (ip2, port2) →
  Forall (fun p => ∃ t, sent_at ip1 port1 t p ∨ sent_at ip2 port2 t p) packet_data →
  packet_data ≡ₚ packet_data' →
  initiator packet_data = Some (Some ip1, Some port1) →
  initiator packet_data' = Some (Some ip2, Some port2) →
  feature packet_data "Fwd IAT Std" = feature packet_data' "Bwd IAT Std"
  ∧ feature packet_data "Fwd IAT Max" = feature packet_data' "Bwd IAT Max"
  ∧ feature packet_data "Bwd IAT Std" = feature packet_data' "Fwd IAT Std"
  ∧ feature packet_data "Bwd IAT Max" = feature packet_data' "Fwd IAT Max".
Proof.
  intros Hne Hall Hp Hi Hi'.
  assert (Forall is_packet packet_data) as Hpk.
  { eapply Forall_impl; [exact Hall|]. intros p [t [H|H]]; [by exists ip1, port1, t|by exists ip2, port2, t]. }
  assert (∀ ip port pd,
            initiator pd = Some (Some ip, Some port) → Forall is_packet pd →
            parse_packet_data pd
            = Ok (Times (flat_map (forward_stamp ip port) pd)
                        (flat_map (backward_stamp ip port) pd)
                        (flat_map stamp pd))) as Hparse.
  { intros ip port [|p0 rest] Hinit Hpd; [done|].
    injection Hinit as Hip Hport.
    by rewrite (parse_packet_data_spec _ _ ip port), (is_packet_fatal _ Hpd). }
  rewrite !feature_features_of.
  rewrite (Hparse _ _ _ Hi Hpk), (Hparse _ _ _ Hi') by (by rewrite <- Hp).
  cbv beta iota delta [rbind]. unfold features_of.
  cbn [forward_packet_times backward_packet_times all_packet_times].
  assert (flat_map (forward_stamp ip1 port1) packet_data
          ≡ₚ flat_map (backward_stamp ip2 port2) packet_data') as Hf.
  { rewrite <- (flat_map_proper _ _ _ Hp).
    rewrite (flat_map_ext_Forall (forward_stamp ip1 port1) (backward_stamp ip2 port2)); [done|].
    eapply Forall_impl; [exact Hall|]. intros p H. by apply two_endpoints_swap. }
  assert (flat_map (backward_stamp ip1 port1) packet_data
          ≡ₚ flat_map (forward_stamp ip2 port2) packet_data') as Hb.
  { rewrite <- (flat_map_proper _ _ _ Hp).
    rewrite (flat_map_ext_Forall (backward_stamp ip1 port1) (forward_stamp ip2 port2)); [done|].
    eapply Forall_impl; [exact Hall|]. intros p H. by apply two_endpoints_swap. }
  rewrite (inter_arrival_times_proper _ _ Hf), (inter_arrival_times_proper _ _ Hb).
  by split_and!.
Qed.

Lemma X9_endpoints_exchanged_witness :
  feature two_way "Fwd IAT Std" = feature two_way_shuffled "Bwd IAT Std"
  ∧ feature two_way "Fwd IAT Max" = feature two_way_shuffled "Bwd IAT Max"
  ∧ feature two_way "Bwd IAT Std" = feature two_way_shuffled "Fwd IAT Std"
  ∧ feature two_way "Bwd IAT Max" = feature two_way_shuffled "Fwd IAT Max".
Proof.
  apply (X9_endpoints_exchanged host_a (JNum 40000) host_b (JNum 443)
           two_way two_way_shuffled).
  - discriminate.
  - repeat constructor.
    + exists 0%Z. by left.
    + exists 1000%Z. by left.
    + exists 5000%Z. by right.
  - symmetry. apply Permutation_cons_append.
  - reflexivity.
  - reflexivity.
Defined.

(** ** Reading the columns *)

Lemma column_Ok (features : list (string * float)) (col : string) (v : float) :
  NoDup features.*1 → (col, v) ∈ features → column features col = Ok v.
Proof.
  induction features as [|[name w] features IH]; intros Hnd Hin; simpl.
  - by apply elem_of_nil in Hin.
  - apply NoDup_cons in Hnd as [Hname Hnd].
    apply elem_of_cons in Hin as [[= <- <-]|Hin].
    + by rewrite decide_True.
    + rewrite decide_False; [by apply IH|].
      intros ->. apply Hname. apply list_elem_of_fmap. by exists (col, v).
Qed.

Lemma column_Raise (features : list (string * float)) (col : string) :
  col ∉ features.*1 → column features col = Raise (KeyError col).
Proof.
  induction features as [|[name w] features IH]; intros Hnin; simpl; [done|].
  rewrite decide_False.
  - apply IH. intros H. apply Hnin. by right.
  - intros ->. apply Hnin. by left.
Qed.

Lemma column_cases (features : list (string * float)) (col : string) :
  (∃ v, (col, v) ∈ features ∧ column features col = Ok v)
  ∨ (col ∉ features.*1) ∧ column features col = Raise (KeyError col).
Proof.
  induction features as [|[name w] features IH]; simpl.
  - right. split; [apply not_elem_of_nil|done].
  - destruct (decide (name = col)) as [->|Hne].
    + left. exists w. split; [by left|done].
    + destruct IH as [(v & Hin & ->)|[Hnin ->]].
      * left. exists v. split; [by right|done].
      * right. split; [|done]. intros [?|?]%elem_of_cons; done.
Qed.

Lemma column_proper (features features' : list (string * float)) (col : string) :
  NoDup features.*1 → features ≡ₚ features' →
  column features col = column features' col.
Proof.
  intros Hnd Hp.
  assert (NoDup features'.*1) as Hnd' by (by rewrite <- Hp).
  destruct (column_cases features col) as [(v & Hin & ->)|[Hnin ->]].
  - symmetry. apply column_Ok; [done|]. by rewrite <- Hp.
  - symmetry. apply column_Raise. by rewrite <- Hp.
Qed.

Lemma absent_proper (features features' : list (string * float)) (col : string) :
  features ≡ₚ features' → absent features col = absent features' col.
Proof. intros Hp. unfold absent. apply bool_decide_ext. by rewrite Hp. Qed.

Lemma row_values_proper (features features' : list (string * float))
    (cols : list string) :
  NoDup features.*1 → features ≡ₚ features' →
  row_values features cols = row_values features' cols.
Proof.
  intros Hnd Hp. induction cols as [|c cols IH]; simpl; [done|].
  by rewrite (column_proper _ _ c Hnd Hp), IH.
Qed.

Lemma row_values_Ok (features : list (string * float)) (cols : list string) :
  Forall (fun c => c ∈ features.*1) cols →
  ∃ vector, row_values features cols = Ok vector
            ∧ Forall2 (fun c v => (c, v) ∈ features) cols vector.
Proof.
  induction 1 as [|c cols Hc _ (vs & IH & Hall)]; simpl.
  - by exists [].
  - destruct (column_cases features c) as [(v & Hin & ->)|[Hnin _]]; [|done].
    rewrite IH. exists (v :: vs). split; [done|by constructor].
Qed.

Lemma elem_of_unique (seen l : list string) (x : string) :
  x ∈ unique seen l ↔ x ∈ l ∧ x ∉ seen.
Proof.
  revert seen. induction l as [|y l IH]; intros seen; simpl.
  - split; [by intros ?%elem_of_nil|by intros [?%elem_of_nil _]].
  - destruct (decide (y ∈ seen)) as [Hy|Hy].
    + rewrite IH, elem_of_cons. split; [intuition|].
      intros [[->|?] ?]; [done|by split].
    + rewrite !elem_of_cons, IH, elem_of_cons. split.
      * intros [->|[? ?]]; intuition.
      * intros [[->|?] ?]; [by left|].
        destruct (decide (x = y)) as [->|?]; [by left|right; intuition].
Qed.

Lemma NoDup_unique (seen l : list string) : NoDup (unique seen l).
Proof.
  revert seen. induction l as [|y l IH]; intros seen; simpl; [constructor|].
  destruct (decide (y ∈ seen)); [apply IH|].
  constructor; [|apply IH]. rewrite elem_of_unique, elem_of_cons. intuition.
Qed.

Lemma unique_sublist (seen l : list string) : unique seen l `sublist_of` l.
Proof.
  revert seen. induction l as [|y l IH]; intros seen; simpl; [done|].
  destruct (decide (y ∈ seen)); [by apply sublist_cons|by apply sublist_skip].
Qed.

Lemma elem_of_not_found (features : list (string * float)) (cols : list string)
    (c : string) :
  c ∈ not_found features cols ↔ c ∈ cols ∧ c ∉ features.*1.
Proof.
  unfold not_found. rewrite elem_of_unique, !list_elem_of_In, filter_In.
  unfold absent. rewrite bool_decide_eq_true, list_elem_of_In.
  split; [intros [[? ?] _]; by split|].
  intros [? ?]. split; [by split|]. by intros ?.
Qed.

Lemma not_found_nil (features : list (string * float)) (cols : list string) :
  not_found features cols = [] ↔ Forall (fun c => c ∈ features.*1) cols.
Proof.
  rewrite Forall_forall. split.
  - intros Hnil c Hc. destruct (decide (c ∈ features.*1)) as [|Hnin]; [done|].
    assert (c ∈ not_found features cols) as Hin by (by apply elem_of_not_found).
    rewrite Hnil in Hin. by apply elem_of_nil in Hin.
  - intros Hall. destruct (not_found features cols) as [|c l] eqn:Heq; [done|].
    assert (c ∈ not_found features cols) as Hin by (rewrite Heq; by left).
    apply elem_of_not_found in Hin as [Hc Hnin]. by apply Hall in Hc.
Qed.

Lemma not_found_proper (features features' : list (string * float))
    (cols : list string) :
  features ≡ₚ features' → not_found features cols = not_found features' cols.
Proof.
  intros Hp. unfold not_found. f_equal.
  induction cols as [|c cols IH]; simpl; [done|].
  by rewrite (absent_proper _ _ c Hp), IH.
Qed.

Lemma forallb_absent (features : list (string * float)) (cols : list string) :
  Exists (fun c => c ∈ features.*1) cols → forallb (absent features) cols = false.
Proof.
  induction 1 as [c cols Hc|c cols _ IH]; simpl.
  - unfold absent at 1. by rewrite bool_decide_eq_false_2 by (by intros ?).
  - rewrite IH. apply andb_false_r.
Qed.

(** X10: reading the expected columns makes the vector independent of
    the order in which the dictionary was filled: two dictionaries with
    the same (distinct) keys and values in any order give the same answer.
    When every requested column is a key, the answer is the vector of their
    values, one per requested column and in the order asked; it is a vector
    in no other case.  When a requested column is missing, the answer is
    one KeyError for the whole request: if some requested column is a key,
    its message lists exactly the missing columns, each once and in the
    order asked. *)
Theorem X10_columns_by_name (features features' : list (string * float))
    (cols : list string) :
  NoDup features.*1 →
  features ≡ₚ features' →
  select_columns features cols = select_columns features' cols
  ∧ (Forall (fun c => c ∈ features.*1) cols →
     ∃ vector, select_columns features cols = Ok vector
               ∧ Forall2 (fun c v => (c, v) ∈ features) cols vector)
  ∧ (∀ vector, select_columns features cols = Ok vector →
               Forall (fun c => c ∈ features.*1) cols)
  ∧ (∀ missing, missing ∈ cols → missing ∉ features.*1 →
       ∃ msg, select_columns features cols = Raise (KeyError msg)
         ∧ (Exists (fun c => c ∈ features.*1) cols →
            msg = str_list (not_found features cols) +:+ " not in index"))
  ∧ (∀ c, c ∈ not_found features cols ↔ c ∈ cols ∧ c ∉ features.*1)
  ∧ NoDup (not_found features cols)
  ∧ not_found features cols `sublist_of` cols.
Proof.
  intros Hnd Hp. split_and!.
  - unfold select_columns. rewrite <- (not_found_proper _ _ cols Hp).
    rewrite (row_values_proper _ _ cols Hnd Hp).
    replace (forallb (absent features') cols) with (forallb (absent features) cols);
      [done|].
    induction cols as [|c cols IH]; simpl; [done|].
    by rewrite (absent_proper _ _ c Hp), IH.
  - intros Hall. unfold select_columns.
    rewrite (proj2 (not_found_nil _ _) Hall). by apply row_values_Ok.
  - intros vector. unfold select_columns.
    destruct (not_found features cols) as [|c l] eqn:Heq.
    + intros _. by apply not_found_nil.
    + by destruct (forallb _ _).
  - intros missing Hin Hnin. unfold select_columns.
    assert (missing ∈ not_found features cols) as Hnf by (by apply elem_of_not_found).
    destruct (not_found features cols) as [|c l] eqn:Heq;
      [by apply elem_of_nil in Hnf|].
    destruct (forallb (absent features) cols) eqn:Hall.
    + eexists. split; [done|]. intros Hex. by rewrite forallb_absent in Hall.
    + eexists. split; [done|]. done.
  - apply elem_of_not_found.
  - apply NoDup_unique.
  - unfold not_found. etrans; [apply unique_sublist|]. apply filter_sublist.
Qed.

Lemma X10_columns_by_name_witness :
  select_columns two_columns asked_columns = select_columns two_columns_swapped asked_columns
  ∧ (Forall (fun c => c ∈ two_columns.*1) asked_columns →
     ∃ vector, select_columns two_columns asked_columns = Ok vector
               ∧ Forall2 (fun c v => (c, v) ∈ two_columns) asked_columns vector)
  ∧ (∀ vector, select_columns two_columns asked_columns = Ok vector →
               Forall (fun c => c ∈ two_columns.*1) asked_columns)
  ∧ (∀ missing, missing ∈ asked_columns → missing ∉ two_columns.*1 →
       ∃ msg, select_columns two_columns asked_columns = Raise (KeyError msg)
         ∧ (Exists (fun c => c ∈ two_columns.*1) asked_columns →
            msg = str_list (not_found two_columns asked_columns) +:+ " not in index"))
  ∧ (∀ c, c ∈ not_found two_columns asked_columns
          ↔ c ∈ asked_columns ∧ c ∉ two_columns.*1)
  ∧ NoDup (not_found two_columns asked_columns)
  ∧ not_found two_columns asked_columns `sublist_of` asked_columns.
Proof.
  apply (X10_columns_by_name two_columns two_columns_swapped asked_columns).
  - compute_done.
  - apply perm_swap.
Defined.

(** The message names both missing columns, the repeated one once. *)
Example two_columns_missing :
  select_columns two_columns asked_columns
  = Raise (KeyError "['Bwd IAT Std', 'Idle Mean'] not in index")
  ∧ select_columns two_columns ["Bwd IAT Std"]
    = Raise (KeyError "None of [Index(['Bwd IAT Std'], dtype='object')] are in the [columns]")
  ∧ select_columns two_columns ["Fwd IAT Std"; "Idle Max"] = Ok [2; 1]%float.
Proof. split_and!; reflexivity. Qed.

(** ** The answers of the route *)

Lemma select_columns_features_of (t : times) :
  select_columns (features_of t) expected_cols = Ok (features_of t).*2.
Proof. reflexivity. Qed.

Lemma validate_None (pd : list packet) :
  validate pd = None → Forall (fun q => missing_fields q = []) pd.
Proof.
  induction pd as [|p pd IH]; simpl; [done|].
  destruct (missing_fields p) eqn:Hp; [|done]. intros H. constructor; auto.
Qed.

Lemma validate_Some (pd : list packet) (response : body * Z) :
  validate pd = Some response →
  Exists (fun q => missing_fields q ≠ []) pd
  ∧ ∃ missing, response = (ErrorBody ("Missing required fields in packet: "
                                      +:+ String.concat ", " missing), 400%Z).
Proof.
  induction pd as [|p pd IH]; simpl; [done|].
  destruct (missing_fields p) as [|f fs] eqn:Hp.
  - intros [H1 H2]%IH. split; [by right|done].
  - intros [= <-]. split; [left; by rewrite Hp|by exists (f :: fs)].
Qed.

(** What [score] can raise: never a ValueError. *)
Lemma score_raises (predict_proba : list float → list float) (pd : list packet) (e : exn) :
  score predict_proba pd = Raise e →
  e = KeyError "src_ip" ∨ e = KeyError "src_port" ∨ e = not_str
  ∨ e = IndexError "list index out of range".
Proof.
  unfold score. rewrite extract_all_features_eq.
  destruct pd as [|p0 rest].
  - simpl. destruct (predict_proba _ !! 1); [done|]. intros [= <-]. auto.
  - unfold parse_packet_data, getitem.
    destruct (p0 !! "src_ip") as [ip|]; [|intros [= <-]; auto].
    destruct (p0 !! "src_port") as [port|]; [|intros [= <-]; auto].
    cbv beta iota delta [rbind]. rewrite parse_loop_spec.
    destruct (existsb fatal (p0 :: rest)); [intros [= <-]; auto|].
    rewrite select_columns_features_of.
    destruct (predict_proba _ !! 1); [done|]. intros [= <-]. auto.
Qed.

(** X11: the route answers 400 only to an empty request ('Empty packet
    data') or to one with a packet that lacks a required key ('Missing
    required fields ...').  No timestamp, however malformed, is answered
    with 400: the 'Invalid data format' answer of the route is never
    given for a classifier that returns. *)
Theorem X11_only_validation_answers_400 (predict_proba : list float → list float)
    (packet_data : list packet) (answer : body) :
  predict (Some predict_proba) packet_data = (answer, 400%Z) →
  packet_data = [] ∧ answer = ErrorBody "Empty packet data"
  ∨ Exists (fun p => missing_fields p ≠ []) packet_data
    ∧ ∃ missing, answer = ErrorBody ("Missing required fields in packet: "
                                     +:+ String.concat ", " missing).
Proof.
  unfold predict. destruct packet_data as [|p0 rest]; [intros [= <-]; by left|].
  destruct (validate (p0 :: rest)) as [response|] eqn:Hv.
  - apply validate_Some in Hv as [Hex [missing ->]]. intros [= <-]. right. eauto.
  - destruct (score predict_proba (p0 :: rest)) as [verdict|e] eqn:Hs; [done|].
    apply score_raises in Hs as [-> | [-> | [-> | ->]]]; done.
Qed.

Lemma X11_only_validation_answers_400_witness :
  [good_packet; bad_packet] = [] ∧ ErrorBody "Missing required fields in packet: dst_port"
                                   = ErrorBody "Empty packet data"
  ∨ Exists (fun p => missing_fields p ≠ []) [good_packet; bad_packet]
    ∧ ∃ missing, ErrorBody "Missing required fields in packet: dst_port"
                 = ErrorBody ("Missing required fields in packet: "
                              +:+ String.concat ", " missing).
Proof.
  apply (X11_only_validation_answers_400 sample_model [good_packet; bad_packet]).
  reflexivity.
Defined.

Lemma existsb_fatal_Exists (pd : list packet) :
  Exists (fun p => ∃ n, p !! "timestamp" = Some (JNum n)) pd → existsb fatal pd = true.
Proof.
  induction 1 as [p pd [n Hp]|p pd _ IH]; simpl.
  - unfold fatal. by rewrite Hp.
  - rewrite IH. by destruct (fatal p).
Qed.

(** X12: a request that passes the validation but has a packet whose
    timestamp is not a string (a number, say) is answered with status 500
    and 'Server error: fromisoformat: argument must be str'; the
    classifier is not consulted. *)
Theorem X12_non_string_timestamp_answers_500 (predict_proba : list float → list float)
    (packet_data : list packet) :
  Forall (fun p => missing_fields p = []) packet_data →
  Exists (fun p => ∃ n, p !! "timestamp" = Some (JNum n)) packet_data →
  predict (Some predict_proba) packet_data
  = (ErrorBody "Server error: fromisoformat: argument must be str", 500%Z).
Proof.
  intros Hv Hex. apply existsb_fatal_Exists in Hex.
  destruct packet_data as [|p0 rest]; [done|].
  unfold predict. rewrite (validate_valid _ Hv).
  pose proof Hv as [Hm _]%Forall_cons.
  apply missing_fields_nil in Hm as (_ & [ip Hip] & _ & [port Hport] & _).
  unfold score. rewrite extract_all_features_eq.
  by rewrite (parse_packet_data_spec _ _ ip port), Hex.
Qed.

Lemma X12_non_string_timestamp_answers_500_witness :
  predict (Some sample_model) [good_packet; pkt host_b (JNum 443) (JNum 1700000000)]
  = (ErrorBody "Server error: fromisoformat: argument must be str", 500%Z).
Proof.
  apply (X12_non_string_timestamp_answers_500 sample_model
           [good_packet; pkt host_b (JNum 443) (JNum 1700000000)]).
  - by repeat constructor.
  - right. left. by exists 1700000000%Z.
Defined.

(** X13: when the classifier returns fewer than two probabilities for a
    valid request, the route answers with status 500 and 'Server error:
    list index out of range'. *)
Theorem X13_short_probabilities_answer_500 (predict_proba : list float → list float)
    (packet_data : list packet) (vector : list float) :
  packet_data ≠ [] →
  Forall valid_packet packet_data →
  feature_vector packet_data = Ok vector →
  length (predict_proba vector) < 2 →
  predict (Some predict_proba) packet_data
  = (ErrorBody "Server error: list index out of range", 500%Z).
Proof.
  intros Hne Hv Hvec Hlen. unfold predict.
  rewrite (validate_valid _ (valid_packet_validated _ Hv)).
  destruct packet_data as [|p0 rest]; [done|].
  unfold score. unfold feature_vector in Hvec.
  destruct (extract_all_features (p0 :: rest)) as [features|]; [|done].
  cbv beta iota delta [rbind] in Hvec |- *. rewrite Hvec.
  by rewrite (lookup_ge_None_2 (predict_proba vector) 1) by lia.
Qed.

Lemma X13_short_probabilities_answer_500_witness :
  predict (Some (fun _ => [1%float])) [good_packet]
  = (ErrorBody "Server error: list index out of range", 500%Z).
Proof.
  apply (X13_short_probabilities_answer_500 (fun _ => [1%float]) [good_packet]
           (replicate 12 0%float)).
  - discriminate.
  - by repeat constructor.
  - reflexivity.
  - simpl. lia.
Defined.

Lemma all_dropped_stamps (f : packet → bool) (pd : list packet) :
  Forall (fun p => dropped p = true) pd →
  flat_map (fun p => if f p then stamp p else []) pd = [].
Proof.
  induction 1 as [|p pd Hp _ IH]; [done|]. simpl.
  rewrite IH, (dropped_stamp _ Hp). by destruct (f p).
Qed.

(** X14: a request that passes the validation and in which no timestamp
    parses (each is a string that is not in ISO form) is not rejected: all
    packets are dropped, the classifier is given twelve zeros, and its
    verdict on them is returned with status 200. *)
Theorem X14_unparsed_request_is_scored (predict_proba : list float → list float)
    (packet_data : list packet) (p_attack : float) :
  packet_data ≠ [] →
  Forall (fun p => missing_fields p = []) packet_data →
  Forall (fun p => dropped p = true) packet_data →
  predict_proba (replicate 12 0%float) !! 1 = Some p_attack →
  feature_vector packet_data = Ok (replicate 12 0%float)
  ∧ predict (Some predict_proba) packet_data
    = (VerdictBody (int_of_bool (is_attack_of Config.PREDICTION_THRESHOLD p_attack))
         (is_attack_of Config.PREDICTION_THRESHOLD p_attack), 200%Z).
Proof.
  intros Hne Hv Hd Hp. destruct packet_data as [|p0 rest]; [done|].
  pose proof Hv as [Hm _]%Forall_cons.
  apply missing_fields_nil in Hm as (_ & [ip Hip] & _ & [port Hport] & _).
  assert (existsb fatal (p0 :: rest) = false) as Hf.
  { clear -Hd. induction Hd as [|p pd Hp _ IH]; [done|].
    simpl. by rewrite (dropped_not_fatal _ Hp), IH. }
  assert (extract_all_features (p0 :: rest) = Ok (features_of (Times [] [] []))) as Hfs.
  { rewrite extract_all_features_eq, (parse_packet_data_spec _ _ ip port), Hf by done.
    cbv beta iota delta [rbind].
    rewrite (all_dropped_stamps (is_forward ip port) _ Hd
               : flat_map (forward_stamp ip port) _ = []).
    rewrite (all_dropped_stamps (is_backward ip port) _ Hd
               : flat_map (backward_stamp ip port) _ = []).
    rewrite (all_dropped_stamps (fun _ => true) _ Hd : flat_map stamp _ = []).
    done. }
  split.
  - unfold feature_vector. by rewrite Hfs.
  - unfold predict, score. rewrite (validate_valid _ Hv), Hfs.
    cbv beta iota delta [rbind]. rewrite select_columns_features_of.
    change ((features_of (Times [] [] [])).*2) with (replicate 12 0%float).
    by rewrite Hp.
Qed.

Lemma X14_unparsed_request_is_scored_witness :
  feature_vector [pkt host_a (JNum 40000) (JStr "yesterday")] = Ok (replicate 12 0%float)
  ∧ predict (Some sample_model) [pkt host_a (JNum 40000) (JStr "yesterday")]
    = (VerdictBody (int_of_bool (is_attack_of Config.PREDICTION_THRESHOLD 0.06))
         (is_attack_of Config.PREDICTION_THRESHOLD 0.06), 200%Z).
Proof.
  apply (X14_unparsed_request_is_scored sample_model
           [pkt host_a (JNum 40000) (JStr "yesterday")] 0.06%float).
  - discriminate.
  - by repeat constructor.
  - by repeat constructor.
  - reflexivity.
Defined.

Lemma missing_fields_same_keys (p q : packet) :
  same_request_keys p q → missing_fields p = missing_fields q.
Proof.
  intros ((Ht & Hip & Hport) & Hdi & Hdp). unfold missing_fields, required_fields.
  cbn [List.filter]. rewrite Ht, Hip, Hport.
  assert (bool_decide (p !! "dst_ip" = None) = bool_decide (q !! "dst_ip" = None)) as ->
    by (by apply bool_decide_ext).
  assert (bool_decide (p !! "dst_port" = None) = bool_decide (q !! "dst_port" = None)) as ->
    by (by apply bool_decide_ext).
  done.
Qed.

(** X15: the answer of the route depends on a packet only through the
    values under [timestamp], [src_ip] and [src_port] and through the
    presence of [dst_ip] and [dst_port]: other keys, and the values of the
    destination address and port, are ignored. *)
Theorem X15_answer_ignores_other_fields (model : option (list float → list float))
    (packet_data packet_data' : list packet) :
  Forall2 same_request_keys packet_data packet_data' →
  predict model packet_data = predict model packet_data'.
Proof.
  intros H.
  assert (validate packet_data = validate packet_data') as Hval.
  { induction H as [|p q pd pd' Hpq _ IH]; [done|]. simpl.
    by rewrite (missing_fields_same_keys _ _ Hpq), IH. }
  assert (extract_all_features packet_data = extract_all_features packet_data') as Hfs.
  { apply extract_all_features_same_keys. eapply Forall2_impl; [exact H|]. by intros p q [? _]. }
  unfold predict, score. rewrite Hval, Hfs.
  by destruct H.
Qed.

Lemma X15_answer_ignores_other_fields_witness :
  predict (Some sample_model) [good_packet]
  = predict (Some sample_model)
      [<["dst_port" := JStr "https"]> (<["ttl" := JNum 64]> good_packet)].
Proof.
  apply (X15_answer_ignores_other_fields (Some sample_model) [good_packet]
           [<["dst_port" := JStr "https"]> (<["ttl" := JNum 64]> good_packet)]).
  repeat constructor; done.
Defined.

(** ** Gaps and duration *)

Lemma time_diffs_from_gaps (t0 : Z) (rest : list Z) :
  StronglySorted Z.le (t0 :: rest) →
  Forall (fun x => ∃ a b, a ∈ t0 :: rest ∧ b ∈ t0 :: rest ∧ (a ≤ b)%Z
                          ∧ x = (total_seconds (b - a) * 1000000)%float)
    (time_diffs_from t0 rest).
Proof.
  revert t0. induction rest as [|t1 rest IH]; intros t0 Hs; simpl; [done|].
  apply StronglySorted_inv in Hs as [Hs Hle]. constructor.
  - exists t0, t1. split_and!; [by left|by right; left| |done].
    by apply Forall_cons in Hle as [? _].
  - eapply Forall_impl; [by apply IH|].
    intros x (a & b & Ha & Hb & Hab & ->). exists a, b. split_and!; by try right.
Qed.

(** X16: every inter-arrival time is the gap, in microseconds, between two
    time points of the list, the later minus the earlier: no gap is ever
    computed from a negative time difference, whatever the order of the
    list. *)
Theorem X16_gaps_are_forward_in_time (points : list Z) :
  Forall (fun x => ∃ a b, a ∈ points ∧ b ∈ points ∧ (a ≤ b)%Z
                          ∧ x = (total_seconds (b - a) * 1000000)%float)
    (inter_arrival_times points).
Proof.
  unfold inter_arrival_times. rewrite calculate_time_diff_eq. cbn [fst].
  pose proof (list_sort_sorted points) as Hs. pose proof (list_sort_perm points) as Hp.
  destruct (list_sort points) as [|t0 rest]; [done|]. simpl.
  eapply Forall_impl; [by apply time_diffs_from_gaps|].
  intros x (a & b & Ha & Hb & Hab & ->). exists a, b. by rewrite <- Hp.
Qed.

(** X17: Flow Duration is 0.0 below two time points and otherwise the gap
    between the earliest and the latest time point of the list, wherever
    they stand in it; so it does not depend on the order of the list. *)
Theorem X17_flow_duration (points points' : list Z) :
  points ≡ₚ points' →
  extract_flow_duration points = extract_flow_duration points'
  ∧ (length points < 2 ∧ extract_flow_duration points = 0%float
     ∨ ∃ earliest latest,
         earliest ∈ points ∧ latest ∈ points
         ∧ Forall (fun x => (earliest ≤ x ≤ latest)%Z) points
         ∧ extract_flow_duration points
           = (total_seconds (latest - earliest) * 1000000)%float).
Proof.
  intros Hp. split; [by apply extract_flow_duration_proper|].
  destruct points as [|t0 [|t1 rest]]; [left; simpl; split; [lia|done]..|right].
  destruct (max_time_spec t0 (t1 :: rest)) as [Hmax Hmaxall].
  destruct (min_time_spec t0 (t1 :: rest)) as [Hmin Hminall].
  exists (min_time t0 (t1 :: rest)), (max_time t0 (t1 :: rest)).
  split_and!; [done..| |done].
  rewrite Forall_forall in Hmaxall, Hminall. apply Forall_forall.
  intros x Hx. split; [by apply Hminall|by apply Hmaxall].
Qed.

Lemma X17_flow_duration_witness :
  extract_flow_duration [5; 1; 9; 3]%Z = extract_flow_duration [9; 5; 3; 1]%Z
  ∧ (length [5; 1; 9; 3]%Z < 2 ∧ extract_flow_duration [5; 1; 9; 3]%Z = 0%float
     ∨ ∃ earliest latest,
         earliest ∈ [5; 1; 9; 3]%Z ∧ latest ∈ [5; 1; 9; 3]%Z
         ∧ Forall (fun x => (earliest ≤ x ≤ latest)%Z) [5; 1; 9; 3]%Z
         ∧ extract_flow_duration [5; 1; 9; 3]%Z
           = (total_seconds (latest - earliest) * 1000000)%float).
Proof.
  apply (X17_flow_duration [5; 1; 9; 3]%Z [9; 5; 3; 1]%Z).
  apply (bool_decide_unpack _). vm_compute. reflexivity.
Defined.

(** ** The extractors in sequence *)

(** X18: although the extractors sort the shared lists in place, each of
    the twelve entries of the dictionary is what its extractor returns for
    the list as the classifier built it: the order in which
    [extract_all_features] calls the extractors has no influence on any
    entry. *)
Theorem X18_in_place_sorting_is_harmless (packet_data : list packet) :
  extract_all_features packet_data =
    rbind (parse_packet_data packet_data) (fun t =>
      let forward_times := forward_packet_times t in
      let backward_times := backward_packet_times t in
      let all_times := all_packet_times t in
      Ok [ ("Fwd IAT Std", (extract_fwd_iat_std forward_times).1);
           ("Bwd IAT Std", (extract_bwd_iat_std backward_times).1);
           ("Flow IAT Std", (extract_flow_iat_std all_times).1);
           ("Fwd IAT Max", (extract_fwd_iat_max forward_times).1);
           ("Flow IAT Mean", (extract_flow_iat_mean all_times).1);
           ("Flow IAT Max", (extract_flow_iat_max all_times).1);
           ("Fwd IAT Mean", (extract_fwd_iat_mean forward_times).1);
           ("Fwd IAT Total", (extract_fwd_iat_total forward_times).1);
           ("Flow Duration", extract_flow_duration all_times);
           ("Bwd IAT Max", (extract_bwd_iat_max backward_times).1);
           ("Idle Max", (extract_idle_max all_times Config.IDLE_THRESHOLD).1);
           ("Idle Mean", (extract_idle_mean all_times Config.IDLE_THRESHOLD).1) ]).
Proof.
  rewrite extract_all_features_eq.
  destruct (parse_packet_data packet_data) as [t|]; [|done].
  cbv beta iota zeta delta [rbind].
  by rewrite extract_fwd_iat_std_eq, extract_bwd_iat_std_eq, extract_flow_iat_std_eq,
    extract_fwd_iat_max_eq, extract_flow_iat_mean_eq, extract_flow_iat_max_eq,
    extract_fwd_iat_mean_eq, extract_fwd_iat_total_eq, extract_bwd_iat_max_eq,
    extract_idle_max_eq, extract_idle_mean_eq.
Qed.
